(** * Détecteur de contenu IA: the analysis pipeline of [detector.js]

    A shallow embedding of the [TextAnalyzer] class of [src/detector.js]
    (tokenisation, sentence segmentation, vocabulary statistics, sentence
    classification, transition detection and scoring) together with the
    properties of the pipeline that the specification states.

    - A JavaScript string is a sequence of UTF-16 code units: [list N]
      (every list is admitted, so the statements cover all strings).
    - A JavaScript number that the code obtains by dividing two counts is
      a [number]: an exact rational, [Infinity] or [NaN].
    - The fields of [this] that the methods assign are threaded explicitly
      through a [TextAnalyzer] record; [this.cache] is never used.
    - [String.prototype.toLowerCase] is a built-in of the runtime; the
      pipeline is defined over any such function (a section variable), and
      a concrete case mapping for Basic Latin and Latin-1 is provided to
      run the pipeline on French text.
    - [formatDetailsBase] renders the metrics and the markers as HTML and
      [updateCharts] draws them; neither changes them. The report is kept
      as the data it renders ([Details]), the charts are left out. *)

From Stdlib Require Import Strings.String Strings.Ascii.
From Stdlib Require Import List NArith ZArith QArith Bool Lia Arith.
From Stdlib Require Import Permutation Sorted.
Import ListNotations.

Local Open Scope nat_scope.

(** ** JavaScript strings *)

Definition codeunit := N.
Definition jsstring := list codeunit.

Definition jsstring_eq_dec : forall s t : jsstring, {s = t} + {s <> t} :=
  list_eq_dec N.eq_dec.

Definition jsstring_eqb (s t : jsstring) : bool :=
  if jsstring_eq_dec s t then true else false.

(** String literals of the source are written as Rocq strings; the file is
    UTF-8, so a literal is decoded from UTF-8 to UTF-16 code units (one-,
    two- and three-byte sequences, which cover the Basic Multilingual
    Plane). *)
Fixpoint utf16_of_bytes (bs : list N) : jsstring :=
  match bs with
  | [] => []
  | b1 :: rest =>
    if (b1 <? 128)%N then b1 :: utf16_of_bytes rest
    else match rest with
    | b2 :: rest2 =>
      if (b1 <? 224)%N then
        N.lor (N.shiftl (N.land b1 31) 6) (N.land b2 63) :: utf16_of_bytes rest2
      else match rest2 with
      | b3 :: rest3 =>
        N.lor (N.shiftl (N.land b1 15) 12)
          (N.lor (N.shiftl (N.land b2 63) 6) (N.land b3 63))
        :: utf16_of_bytes rest3
      | [] => [b1; b2]
      end
    | [] => [b1]
    end
  end.

Definition js (s : String.string) : jsstring :=
  utf16_of_bytes (map Ascii.N_of_ascii (String.list_ascii_of_string s)).

(** [\s] of a regular expression and the characters removed by
    [String.prototype.trim]: WhiteSpace and LineTerminator of ECMAScript. *)
Definition isWhiteSpace (c : codeunit) : bool :=
  ((9 <=? c) && (c <=? 13) || (c =? 32) || (c =? 160) || (c =? 5760)
   || (8192 <=? c) && (c <=? 8202) || (c =? 8232) || (c =? 8233)
   || (c =? 8239) || (c =? 8287) || (c =? 12288) || (c =? 65279))%N.

(** The character class [[.!?]]. *)
Definition isSentenceEnd (c : codeunit) : bool :=
  ((c =? 46) || (c =? 33) || (c =? 63))%N.

(** [s.split(/c+/)] for a character class [c]: the pieces of [s] between
    the maximal runs of characters of the class. A run at the start or at
    the end of [s] leaves an empty piece there, and the empty string splits
    into one empty piece. *)
Fixpoint split (sep : codeunit -> bool) (s : jsstring) : list jsstring :=
  match s with
  | [] => [[]]
  | c :: s' =>
    if sep c then
      match s' with
      | c' :: _ => if sep c' then split sep s' else [] :: split sep s'
      | [] => [] :: split sep s'
      end
    else
      match split sep s' with
      | piece :: pieces => (c :: piece) :: pieces
      | [] => [[c]]
      end
  end.

Fixpoint trimStart (s : jsstring) : jsstring :=
  match s with
  | c :: s' => if isWhiteSpace c then trimStart s' else s
  | [] => []
  end.

(** [s.trim()] *)
Definition trim (s : jsstring) : jsstring :=
  rev (trimStart (rev (trimStart s))).

Fixpoint startsWith (s t : jsstring) {struct t} : bool :=
  match t, s with
  | [], _ => true
  | _ :: _, [] => false
  | ct :: t', cs :: s' => (ct =? cs)%N && startsWith s' t'
  end.

(** [s.includes(t)] *)
Fixpoint includes (s t : jsstring) : bool :=
  startsWith s t ||
  match s with
  | [] => false
  | _ :: s' => includes s' t
  end.

(** A case mapping for Basic Latin and the Latin-1 Supplement: [A]-[Z] and
    [À]-[Þ] (except [×]) have their lower-case letter 32 positions further;
    every other code unit is kept. On strings of these two blocks it is
    [String.prototype.toLowerCase]. *)
Definition lowerUnit (c : codeunit) : codeunit :=
  if ((65 <=? c) && (c <=? 90)
      || (192 <=? c) && (c <=? 222) && negb (c =? 215))%N
  then (c + 32)%N else c.

Definition toLowerCaseLatin1 (s : jsstring) : jsstring := map lowerUnit s.

(** ** JavaScript numbers

    Every number the pipeline computes is a count or the quotient of two
    counts. A quotient of counts is kept exact; dividing by zero gives
    [Infinity] or [NaN] as in IEEE 754. The code compares quotients with
    the literals [25], [0.7] and [0.4] only: for counts below [2^53] the
    double nearest to [a/b] is above (below) the double of the literal
    exactly when the rational [a/b] is above (below) the decimal literal,
    since two distinct such values differ by at least [1/(10 b)], far more
    than a rounding error. *)
Inductive number :=
| Num (q : Q)
| Infinity
| NaN.

(** [a / b] for two counts *)
Definition div (a b : nat) : number :=
  match b with
  | O => match a with O => NaN | S _ => Infinity end
  | S _ => Num (Qred (Z.of_nat a # Pos.of_nat b))
  end.

(** [x > c] and [x < c] for a literal [c], [n < x] for a count [n] *)
Definition gt (x : number) (c : Q) : bool :=
  match x with
  | Num q => negb (Qle_bool q c)
  | Infinity => true
  | NaN => false
  end.

Definition lt (x : number) (c : Q) : bool :=
  match x with
  | Num q => negb (Qle_bool c q)
  | Infinity => false
  | NaN => false
  end.

Definition count_lt (n : nat) (x : number) : bool :=
  match x with
  | Num q => negb (Qle_bool q (Z.of_nat n # 1))
  | Infinity => true
  | NaN => false
  end.

(** [x || 0] *)
Definition orZero (x : number) : number :=
  match x with
  | NaN => Num 0
  | _ => x
  end.

(** ** Plain objects used as frequency tables

    [frequency[word] = (frequency[word] || 0) + 1] on an object created by
    [{}]. Own properties are kept in insertion order. A word that names a
    method inherited from [Object.prototype] is not counted: the inherited
    function is truthy, the sum is a string, and that string becomes the
    own property. [__proto__] is an accessor whose setter ignores strings,
    so that word never becomes an own property. *)
Inductive entry :=
| Times (n : nat)
| Text.

Definition frequencyTable := list (jsstring * entry).

Definition inheritedMethods : list jsstring :=
  map js ["constructor"; "hasOwnProperty"; "isPrototypeOf";
          "propertyIsEnumerable"; "toLocaleString"; "toString"; "valueOf";
          "__defineGetter__"; "__defineSetter__"; "__lookupGetter__";
          "__lookupSetter__"]%string.

Fixpoint hasOwn (o : frequencyTable) (k : jsstring) : bool :=
  match o with
  | [] => false
  | (k', _) :: o' => jsstring_eqb k' k || hasOwn o' k
  end.

Fixpoint increment (o : frequencyTable) (k : jsstring) : frequencyTable :=
  match o with
  | [] => []
  | (k', v) :: o' =>
    if jsstring_eqb k' k
    then (k', match v with Times n => Times (n + 1) | Text => Text end) :: o'
    else (k', v) :: increment o' k
  end.

Definition bump (o : frequencyTable) (k : jsstring) : frequencyTable :=
  if hasOwn o k then increment o k
  else if jsstring_eqb k (js "__proto__") then o
  else if existsb (jsstring_eqb k) inheritedMethods then o ++ [(k, Text)]
  else o ++ [(k, Times 1)].

(** [Object.entries]: the keys that are array indices first, in ascending
    numeric order, then the other keys in insertion order. *)
Definition isDigit (c : codeunit) : bool := ((48 <=? c) && (c <=? 57))%N.

Definition arrayIndex (k : jsstring) : option N :=
  match k with
  | [] => None
  | c :: k' =>
    if forallb isDigit k && (negb (c =? 48)%N || match k' with [] => true | _ => false end)
    then let n := fold_left (fun acc d => (10 * acc + (d - 48))%N) k 0%N in
         if (n <? 4294967295)%N then Some n else None
    else None
  end.

Fixpoint insertIndex (e : N * (jsstring * entry)) (l : list (N * (jsstring * entry)))
  : list (N * (jsstring * entry)) :=
  match l with
  | [] => [e]
  | e' :: l' => if (fst e <? fst e')%N then e :: l else e' :: insertIndex e l'
  end.

Definition indexEntries (o : frequencyTable) : list (N * (jsstring * entry)) :=
  fold_right (fun kv acc =>
                match arrayIndex (fst kv) with
                | Some n => insertIndex (n, kv) acc
                | None => acc
                end) [] o.

Definition entries (o : frequencyTable) : frequencyTable :=
  map snd (indexEntries o)
  ++ filter (fun kv => match arrayIndex (fst kv) with Some _ => false | None => true end) o.

(** [count > 3] on a value of the table; a string compares as [NaN]. *)
Definition moreThan (v : entry) (n : nat) : bool :=
  match v with
  | Times c => n <? c
  | Text => false
  end.

(** [entries.sort((a, b) => b[1] - a[1])]: a stable sort by descending
    count. [before a b] is [b[1] - a[1] < 0]; a difference that is [NaN]
    counts as zero. With a string among the values the comparison is not
    an order and the result is left to the engine; the insertion sort
    below is then one of the possible results. *)
Definition before (a b : jsstring * entry) : bool :=
  match snd a, snd b with
  | Times ca, Times cb => cb <? ca
  | _, _ => false
  end.

Fixpoint insertSorted (x : jsstring * entry) (l : frequencyTable) : frequencyTable :=
  match l with
  | [] => [x]
  | y :: l' => if before y x then y :: insertSorted x l' else x :: l
  end.

Definition sortByCount (l : frequencyTable) : frequencyTable :=
  fold_right insertSorted [] l.

(** ** Data model *)

Record WordCount := { word : jsstring; count : entry }.

Record VocabularyStats := {
  uniqueWords : nat;
  totalWords : nat;
  avgWordLength : number;
  commonWords : list WordCount
}.

Record SentenceTypes := { simple : nat; compound : nat; complex : nat }.

Record SentenceStats := {
  lengths : list nat;
  types : SentenceTypes;
  transitions : list jsstring
}.

Record Metrics := {
  vocabularyStats : VocabularyStats;
  sentenceStats : SentenceStats
}.

Inductive MarkerType := structure | vocabulary | coherence.
Inductive Severity := low | medium | high.

(** The message of a marker is a fixed text or a template; a template is
    kept with the values that fill it. *)
Inductive Message :=
| LongSentences
| RepeatedWords (firstFive : list WordCount)
| MissingTransitions
| SimpleStructure
| PoorVocabulary (diversityRatio : number).

Record Marker := { type : MarkerType; message : Message; severity : Severity }.

(** [details] of a result: the advisory text, or the report that
    [formatDetailsBase] renders from the metrics and the markers. *)
Inductive Details :=
| PleaseEnterText
| DetailsBase (m : Metrics) (aiMarkers : list Marker).

Record Result := { aiScore : Z; details : Details; metrics : Metrics }.

(** The fields of a [TextAnalyzer] that [analyzeText] assigns. *)
Record TextAnalyzer := { currentText : jsstring; this_metrics : Metrics }.

Definition COMMON_TRANSITIONS : list jsstring :=
  map js ["premièrement"; "deuxièmement"; "ensuite"; "puis"; "enfin";
          "cependant"; "néanmoins"; "toutefois"; "mais"; "or";
          "donc"; "ainsi"; "par conséquent"; "en effet"; "car";
          "de plus"; "en outre"; "également"; "aussi"; "par ailleurs"]%string.

Definition getEmptyMetrics : Metrics :=
  {| vocabularyStats :=
       {| uniqueWords := 0; totalWords := 0; avgWordLength := Num 0;
          commonWords := [] |};
     sentenceStats :=
       {| lengths := [];
          types := {| simple := 0; compound := 0; complex := 0 |};
          transitions := [] |} |}.

Definition newTextAnalyzer : TextAnalyzer :=
  {| currentText := []; this_metrics := getEmptyMetrics |}.

Definition nonEmpty (s : jsstring) : bool :=
  match s with [] => false | _ :: _ => true end.

(** [text.split(/[.!?]+/).filter(s => s.trim().length > 0)] *)
Definition sentencesOf (text : jsstring) : list jsstring :=
  filter (fun s => 0 <? length (trim s)) (split isSentenceEnd text).

(** The body of the [forEach] of [analyzeSentenceStructure]. *)
Definition countSentence (t : SentenceTypes) (sentence : jsstring) : SentenceTypes :=
  if includes sentence (js ",")
     && (includes sentence (js "qui") || includes sentence (js "que"))
  then {| simple := simple t; compound := compound t; complex := complex t + 1 |}
  else if includes sentence (js ",") || includes sentence (js "et")
          || includes sentence (js "ou")
  then {| simple := simple t; compound := compound t + 1; complex := complex t |}
  else {| simple := simple t + 1; compound := compound t; complex := complex t |}.

(** The frequency table of the words longer than three code units. *)
Definition countWords (words : list jsstring) : frequencyTable :=
  fold_left (fun o w => if 3 <? length w then bump o w else o) words [].

Section Pipeline.

(** [String.prototype.toLowerCase] *)
Variable toLowerCase : jsstring -> jsstring.

Definition findTransitions (text : jsstring) : list jsstring :=
  filter (fun transition => includes (toLowerCase text) (toLowerCase transition))
         COMMON_TRANSITIONS.

Definition getMostCommonWords (words : list jsstring) (limit : nat) : list WordCount :=
  let frequency :=
    fold_left (fun o w => if 3 <? length w then bump o (toLowerCase w) else o)
              words [] in
  map (fun kv => {| word := fst kv; count := snd kv |})
      (firstn limit (sortByCount (entries frequency))).

Definition analyzeVocabularyStats (text : jsstring) : VocabularyStats :=
  let words := filter (fun w => 0 <? length w) (split isWhiteSpace text) in
  let uniqueWords := nodup jsstring_eq_dec (map toLowerCase words) in
  let wordLengths := map (@length codeunit) words in
  {| uniqueWords := length uniqueWords;
     totalWords := length words;
     avgWordLength := orZero (div (fold_left Nat.add wordLengths 0) (length words));
     commonWords := getMostCommonWords words 20 |}.

Definition analyzeSentenceStructure (text : jsstring) : SentenceStats :=
  let sentences := sentencesOf text in
  {| lengths := map (fun s => length (split isWhiteSpace s)) sentences;
     types := fold_left countSentence sentences
                {| simple := 0; compound := 0; complex := 0 |};
     transitions := findTransitions text |}.

(** [performDetailedAnalysis] reads [this.metrics]; it returns the markers
    and the score. *)
Definition performDetailedAnalysis (this : TextAnalyzer) (text : jsstring)
  : list Marker * Z :=
  let sentences := sentencesOf text in
  let words := split isWhiteSpace (toLowerCase text) in
  let avgSentenceLength := div (length words) (length sentences) in
  let wordFrequency := countWords words in
  let repeatedWords :=
    map (fun kv => {| word := fst kv; count := snd kv |})
        (filter (fun kv => moreThan (snd kv) 3) (entries wordFrequency)) in
  let transitionCount := length (transitions (sentenceStats (this_metrics this))) in
  let t := types (sentenceStats (this_metrics this)) in
  let total := simple t + compound t + complex t in
  let v := vocabularyStats (this_metrics this) in
  let diversityRatio := div (uniqueWords v) (totalWords v) in
  let markers : list Marker := [] in
  let score := 0%Z in
  let '(markers, score) :=
    if gt avgSentenceLength 25
    then (markers ++ [{| type := structure; message := LongSentences;
                         severity := high |}], (score + 15)%Z)
    else (markers, score) in
  let markers :=
    if 0 <? length repeatedWords
    then markers ++ [{| type := vocabulary;
                        message := RepeatedWords (firstn 5 repeatedWords);
                        severity := medium |}]
    else markers in
  let '(markers, score) :=
    if count_lt transitionCount (div (length sentences) 4)
    then (markers ++ [{| type := coherence; message := MissingTransitions;
                         severity := medium |}], (score + 10)%Z)
    else (markers, score) in
  let '(markers, score) :=
    if gt (div (simple t) total) (7 # 10)
    then (markers ++ [{| type := structure; message := SimpleStructure;
                         severity := medium |}], (score + 10)%Z)
    else (markers, score) in
  let '(markers, score) :=
    if lt diversityRatio (2 # 5)
    then (markers ++ [{| type := vocabulary;
                         message := PoorVocabulary diversityRatio;
                         severity := high |}], (score + 20)%Z)
    else (markers, score) in
  (markers, score).

Definition analyzeAIContent (this : TextAnalyzer) (text : jsstring)
  : (Z * list Marker) * TextAnalyzer :=
  let score := 0%Z in
  let aiMarkers : list Marker := [] in
  let this1 :=
    {| currentText := currentText this;
       this_metrics :=
         {| vocabularyStats := analyzeVocabularyStats text;
            sentenceStats := sentenceStats (this_metrics this) |} |} in
  let this2 :=
    {| currentText := currentText this1;
       this_metrics :=
         {| vocabularyStats := vocabularyStats (this_metrics this1);
            sentenceStats := analyzeSentenceStructure text |} |} in
  let analysis := performDetailedAnalysis this2 text in
  ((score + snd analysis, aiMarkers ++ fst analysis)%Z, this2).

Definition analyzeText (this : TextAnalyzer) (text : jsstring)
  : Result * TextAnalyzer :=
  let this0 := {| currentText := text; this_metrics := this_metrics this |} in
  if negb (nonEmpty (trim text)) then
    ({| aiScore := 0; details := PleaseEnterText; metrics := getEmptyMetrics |},
     this0)
  else
    let this1 := {| currentText := text; this_metrics := getEmptyMetrics |} in
    let '((aiScore, aiMarkers), this2) := analyzeAIContent this1 text in
    ({| aiScore := aiScore;
        details := DetailsBase (this_metrics this2) aiMarkers;
        metrics := this_metrics this2 |},
     this2).

End Pipeline.

(** The markers that a result reports. *)
Definition markersOf (r : Result) : list Marker :=
  match details r with
  | PleaseEnterText => []
  | DetailsBase _ aiMarkers => aiMarkers
  end.

(** ** The scoring table of the specification

    The conditions of the table are restated on the statistics of a
    result, in integer arithmetic: the average sentence length is
    [totalWords / sentenceCount] and is only looked at when there is a
    sentence. [tableScore] is the sum of the deltas of the conditions that
    hold. It is what the scorer is compared with. *)
Definition sentenceCount (m : Metrics) : nat :=
  length (lengths (sentenceStats m)).

Definition tableLongSentences (m : Metrics) : bool :=
  (0 <? sentenceCount m)
  && (25 * sentenceCount m <? totalWords (vocabularyStats m)).

Definition tableMissingTransitions (m : Metrics) : bool :=
  4 * length (transitions (sentenceStats m)) <? sentenceCount m.

Definition tableSimpleStructure (m : Metrics) : bool :=
  7 * sentenceCount m <? 10 * simple (types (sentenceStats m)).

Definition tablePoorVocabulary (m : Metrics) : bool :=
  5 * uniqueWords (vocabularyStats m) <? 2 * totalWords (vocabularyStats m).

Definition delta (cond : bool) (d : Z) : Z := if cond then d else 0%Z.

Definition tableScore (m : Metrics) : Z :=
  (delta (tableLongSentences m) 15 + delta (tableMissingTransitions m) 10
   + delta (tableSimpleStructure m) 10 + delta (tablePoorVocabulary m) 20)%Z.

(** The whitespace-delimited tokens of a string: the pieces of the split
    that are not empty. *)
Definition tokens (s : jsstring) : list jsstring :=
  filter (fun w => 0 <? length w) (split isWhiteSpace s).

(** Whether a string begins, or ends, with a character of a class. *)
Definition beginsWith (sep : codeunit -> bool) (s : jsstring) : bool :=
  match s with
  | c :: _ => sep c
  | [] => false
  end.

Fixpoint endsWith (sep : codeunit -> bool) (s : jsstring) : bool :=
  match s with
  | [] => false
  | [c] => sep c
  | _ :: s' => endsWith sep s'
  end.

(** [s] contains [t] as a substring. *)
Definition substring (t s : jsstring) : Prop :=
  exists pre post, s = pre ++ t ++ post.

(** The three sentence types, the counter each one stands for, and the
    classification rule: complex first, then compound, simple otherwise. *)
Inductive SentenceType := Simple | Compound | Complex.

Definition increase (k : SentenceType) (t : SentenceTypes) : SentenceTypes :=
  match k with
  | Simple => {| simple := simple t + 1; compound := compound t; complex := complex t |}
  | Compound => {| simple := simple t; compound := compound t + 1; complex := complex t |}
  | Complex => {| simple := simple t; compound := compound t; complex := complex t + 1 |}
  end.

Definition complexRule (sentence : jsstring) : Prop :=
  substring (js ",") sentence
  /\ (substring (js "qui") sentence \/ substring (js "que") sentence).

Definition compoundRule (sentence : jsstring) : Prop :=
  substring (js ",") sentence \/ substring (js "et") sentence
  \/ substring (js "ou") sentence.

Inductive classified (sentence : jsstring) : SentenceType -> Prop :=
| classified_complex :
    complexRule sentence -> classified sentence Complex
| classified_compound :
    ~ complexRule sentence -> compoundRule sentence ->
    classified sentence Compound
| classified_simple :
    ~ complexRule sentence -> ~ compoundRule sentence ->
    classified sentence Simple.

(** [l] is [l'] with some elements left out, the others in their order. *)
Inductive subsequence {A : Type} : list A -> list A -> Prop :=
| subsequence_nil : subsequence [] []
| subsequence_skip x l l' : subsequence l l' -> subsequence l (x :: l')
| subsequence_keep x l l' : subsequence l l' -> subsequence (x :: l) (x :: l').

(** ** Definitions for the further properties *)

(** The own property of a table under a key. *)
Fixpoint own (o : frequencyTable) (k : jsstring) : option entry :=
  match o with
  | [] => None
  | (k', v) :: o' => if jsstring_eqb k' k then Some v else own o' k
  end.

(** The value under a key after [n] occurrences of the key have been
    counted into an empty table. *)
Definition counted (k : jsstring) (n : nat) : option entry :=
  match n with
  | O => None
  | S _ =>
    if jsstring_eqb k (js "__proto__") then None
    else if existsb (jsstring_eqb k) inheritedMethods then Some Text
    else Some (Times n)
  end.

(** The words that the frequency tables count. *)
Definition longWords (words : list jsstring) : list jsstring :=
  filter (fun w => 3 <? length w) words.

(** The score delta that goes with each message. *)
Definition weight (m : Message) : Z :=
  match m with
  | LongSentences => 15
  | RepeatedWords _ => 0
  | MissingTransitions => 10
  | SimpleStructure => 10
  | PoorVocabulary _ => 20
  end%Z.

(** The position, among the checks of [performDetailedAnalysis], of the
    check that emits a message. *)
Definition rank (m : Message) : nat :=
  match m with
  | LongSentences => 0
  | RepeatedWords _ => 1
  | MissingTransitions => 2
  | SimpleStructure => 3
  | PoorVocabulary _ => 4
  end.

(** The type under which [countSentence] counts a sentence. *)
Definition typeOf (sentence : jsstring) : SentenceType :=
  if includes sentence (js ",")
     && (includes sentence (js "qui") || includes sentence (js "que"))
  then Complex
  else if includes sentence (js ",") || includes sentence (js "et")
          || includes sentence (js "ou")
  then Compound
  else Simple.

Definition SentenceType_eq_dec : forall a b : SentenceType, {a = b} + {a <> b}.
Proof. decide equality. Defined.

(** [l.join(sep)] *)
Fixpoint join (sep : jsstring) (l : list jsstring) : jsstring :=
  match l with
  | [] => []
  | [s] => s
  | s :: l' => s ++ sep ++ join sep l'
  end.

(** Two expressions of [formatDetailsBase]: the average sentence length
    before it is formatted, [totalWords / lengths.length], and the list of
    connectors, [transitions.join(', ') || 'Aucun']. *)
Definition reportedSentenceLength (m : Metrics) : number :=
  div (totalWords (vocabularyStats m)) (length (lengths (sentenceStats m))).

Definition reportedTransitions (m : Metrics) : jsstring :=
  let joined := join (js ", ") (transitions (sentenceStats m)) in
  if nonEmpty joined then joined else js "Aucun".

(** Two entries of a list of common words, the first with at least as
    many occurrences as the second. *)
Definition countGe (a b : WordCount) : Prop :=
  exists ca cb, count a = Times ca /\ count b = Times cb /\ cb <= ca.

(** ** Strings: facts about [includes], [trim] and [split] *)

Lemma startsWith_prefix (s t : jsstring) :
  startsWith s t = true <-> exists post, s = t ++ post.
Proof.
  revert s; induction t as [|ct t IH]; intros s; simpl.
  - split; [intros _; now exists s | reflexivity].
  - destruct s as [|cs s].
    + split; [discriminate | intros [post H]; discriminate].
    + rewrite andb_true_iff, N.eqb_eq, IH. split.
      * intros [-> [post ->]]. now exists post.
      * intros [post H]. injection H as -> ->. split; [reflexivity | now exists post].
Qed.

Lemma includes_substring (s t : jsstring) :
  includes s t = true <-> exists pre post, s = pre ++ t ++ post.
Proof.
  induction s as [|c s IH]; simpl.
  - rewrite orb_false_r, startsWith_prefix. split.
    + intros [post H]. now exists [], post.
    + intros [pre [post H]]. destruct pre; [now exists post | discriminate].
  - rewrite orb_true_iff, startsWith_prefix, IH. split.
    + intros [[post H] | [pre [post H]]].
      * now exists [], post.
      * exists (c :: pre), post. now rewrite H.
    + intros [[|c' pre] [post H]].
      * left. now exists post.
      * right. injection H as _ H. now exists pre, post.
Qed.

Lemma trimStart_whitespace (s : jsstring) :
  forallb isWhiteSpace s = true -> trimStart s = [].
Proof.
  induction s as [|c s IH]; simpl; [reflexivity|].
  intros H. apply andb_true_iff in H as [-> H]. now apply IH.
Qed.

Lemma trim_whitespace (s : jsstring) :
  forallb isWhiteSpace s = true -> trim s = [].
Proof.
  intros H. unfold trim. now rewrite (trimStart_whitespace s H).
Qed.

Lemma trimStart_nil_whitespace (s : jsstring) :
  trimStart s = [] -> forallb isWhiteSpace s = true.
Proof.
  induction s as [|c s IH]; simpl; [reflexivity|].
  destruct (isWhiteSpace c); [exact IH | discriminate].
Qed.

Lemma trimStart_suffix (s : jsstring) :
  exists pre, s = pre ++ trimStart s /\ forallb isWhiteSpace pre = true.
Proof.
  induction s as [|c s [pre [E W]]]; simpl.
  - now exists [].
  - destruct (isWhiteSpace c) eqn:Hc.
    + exists (c :: pre). simpl. rewrite Hc, W. split; [now f_equal | reflexivity].
    + now exists [].
Qed.

Lemma trim_nil_whitespace (s : jsstring) :
  trim s = [] -> forallb isWhiteSpace s = true.
Proof.
  unfold trim. intros H.
  assert (H1 : trimStart (rev (trimStart s)) = []).
  { rewrite <- (rev_involutive (trimStart _)), H. reflexivity. }
  apply trimStart_nil_whitespace in H1.
  rewrite forallb_forall in H1.
  destruct (trimStart_suffix s) as [pre [E W]].
  rewrite E, forallb_app, W. simpl.
  apply forallb_forall. intros c Hc. apply H1. now apply -> in_rev.
Qed.

Lemma split_cons (sep : codeunit -> bool) (s : jsstring) :
  exists piece pieces, split sep s = piece :: pieces.
Proof.
  induction s as [|c s [piece [pieces IH]]]; simpl.
  - now exists [], [].
  - destruct (sep c).
    + destruct s as [|c' s]; [now exists [], [[]]|].
      destruct (sep c'); [now exists piece, pieces | now exists [], (split sep (c' :: s))].
    + rewrite IH. now exists (c :: piece), pieces.
Qed.

Lemma split_length_pos (sep : codeunit -> bool) (s : jsstring) :
  0 < length (split sep s).
Proof.
  destruct (split_cons sep s) as [piece [pieces ->]]. simpl. lia.
Qed.

Lemma split_begins (sep : codeunit -> bool) (c : codeunit) (s : jsstring) :
  sep c = true -> exists rest, split sep (c :: s) = [] :: rest.
Proof.
  revert c; induction s as [|c' s IH]; intros c Hc; simpl; rewrite Hc.
  - now exists [[]].
  - destruct (sep c') eqn:Hc'.
    + destruct (IH c' Hc') as [rest E]. simpl in E. rewrite Hc' in E.
      now exists rest.
    + eexists. reflexivity.
Qed.

(** The pieces of a split are the non-empty pieces, plus an empty piece
    for a separator run at the start and one for a run at the end. *)
Lemma split_length_pieces (sep : codeunit -> bool) (s : jsstring) :
  s <> [] ->
  length (split sep s)
  = length (filter (fun w => 0 <? length w) (split sep s))
    + Nat.b2n (beginsWith sep s) + Nat.b2n (endsWith sep s).
Proof.
  induction s as [|c s IH]; [congruence|]. intros _.
  destruct s as [|c' s].
  - simpl. destruct (sep c); reflexivity.
  - specialize (IH ltac:(discriminate)).
    change (endsWith sep (c :: c' :: s)) with (endsWith sep (c' :: s)).
    change (split sep (c :: c' :: s)) with
      (if sep c
       then if sep c' then split sep (c' :: s) else [] :: split sep (c' :: s)
       else match split sep (c' :: s) with
            | piece :: rest => (c :: piece) :: rest
            | [] => [[c]]
            end).
    simpl beginsWith in *.
    destruct (sep c) eqn:Hc.
    + destruct (sep c') eqn:Hc'; simpl Nat.b2n in *.
      * exact IH.
      * simpl. simpl in IH. rewrite Hc' in *. lia.
    + destruct (sep c') eqn:Hc'.
      * destruct (split_begins sep c' s Hc') as [rest E]. rewrite E in *.
        simpl in *. lia.
      * simpl in IH |- *. rewrite Hc' in *.
        destruct (split_cons sep s) as [piece [rest E]]. rewrite E in *.
        simpl in *. lia.
Qed.

(** ** Numbers: the comparisons of the scorer, on counts *)

Lemma Qle_bool_div (a b : nat) (p : Z) (q : positive) :
  0 < b ->
  Qle_bool (Qred (Z.of_nat a # Pos.of_nat b)) (p # q)
  = (Z.of_nat a * Z.pos q <=? p * Z.of_nat b)%Z.
Proof.
  intros Hb. apply eq_true_iff_eq.
  rewrite Qle_bool_iff, Qred_correct, Z.leb_le. unfold Qle. simpl.
  replace (Z.pos (Pos.of_nat b)) with (Z.of_nat b); [reflexivity|].
  destruct b; [lia|]. rewrite <- Pos.of_nat_succ. lia.
Qed.

Lemma Qle_bool_div_l (a b : nat) (p : Z) (q : positive) :
  0 < b ->
  Qle_bool (p # q) (Qred (Z.of_nat a # Pos.of_nat b))
  = (p * Z.of_nat b <=? Z.of_nat a * Z.pos q)%Z.
Proof.
  intros Hb. apply eq_true_iff_eq.
  rewrite Qle_bool_iff, Qred_correct, Z.leb_le. unfold Qle. simpl.
  replace (Z.pos (Pos.of_nat b)) with (Z.of_nat b); [reflexivity|].
  destruct b; [lia|]. rewrite <- Pos.of_nat_succ. lia.
Qed.

Lemma gt_div_25 (a b : nat) : gt (div a b) 25 = (25 * b <? a).
Proof.
  destruct b as [|b]; [destruct a; reflexivity|].
  unfold div, gt. rewrite Qle_bool_div by lia.
  apply eq_true_iff_eq. rewrite negb_true_iff, Z.leb_gt, Nat.ltb_lt. lia.
Qed.

Lemma count_lt_div_4 (n s : nat) : count_lt n (div s 4) = (4 * n <? s).
Proof.
  unfold div, count_lt. rewrite Qle_bool_div by lia.
  apply eq_true_iff_eq. rewrite negb_true_iff, Z.leb_gt, Nat.ltb_lt. lia.
Qed.

Lemma gt_div_7_10 (a b : nat) : gt (div a b) (7 # 10) = (7 * b <? 10 * a).
Proof.
  destruct b as [|b]; [destruct a; reflexivity|].
  unfold div, gt. rewrite Qle_bool_div by lia.
  apply eq_true_iff_eq. rewrite negb_true_iff, Z.leb_gt, Nat.ltb_lt. lia.
Qed.

Lemma lt_div_2_5 (a b : nat) : lt (div a b) (2 # 5) = (5 * a <? 2 * b).
Proof.
  destruct b as [|b]; [destruct a; reflexivity|].
  unfold div, lt. rewrite Qle_bool_div_l by lia.
  apply eq_true_iff_eq. rewrite negb_true_iff, Z.leb_gt, Nat.ltb_lt. lia.
Qed.

(** ** The pipeline *)

Ltac case_ltb :=
  match goal with
  | |- context [Nat.ltb ?a ?b] => destruct (Nat.ltb a b)
  end.

Lemma nodup_length_le (l : list jsstring) :
  length (nodup jsstring_eq_dec l) <= length l.
Proof.
  induction l as [|w l IH]; simpl; [lia|].
  destruct (in_dec jsstring_eq_dec w l); simpl; lia.
Qed.

Lemma countSentence_total (t : SentenceTypes) (sentence : jsstring) :
  simple (countSentence t sentence) + compound (countSentence t sentence)
  + complex (countSentence t sentence)
  = simple t + compound t + complex t + 1.
Proof.
  unfold countSentence.
  destruct (includes sentence (js ",")
            && (includes sentence (js "qui") || includes sentence (js "que")));
    [simpl; lia|].
  destruct (includes sentence (js ",") || includes sentence (js "et")
            || includes sentence (js "ou")); simpl; lia.
Qed.

Lemma fold_countSentence_total (sentences : list jsstring) (t : SentenceTypes) :
  let t' := fold_left countSentence sentences t in
  simple t' + compound t' + complex t'
  = simple t + compound t + complex t + length sentences.
Proof.
  revert t; induction sentences as [|s l IH]; intros t; simpl; [lia|].
  specialize (IH (countSentence t s)). simpl in IH.
  rewrite IH, countSentence_total. lia.
Qed.

Section Properties.

Variable toLowerCase : jsstring -> jsstring.

(** What [analyzeText] returns on a text that is not blank. *)
Lemma analyzeText_nonblank (this : TextAnalyzer) (text : jsstring) :
  nonEmpty (trim text) = true ->
  let m := {| vocabularyStats := analyzeVocabularyStats toLowerCase text;
              sentenceStats := analyzeSentenceStructure toLowerCase text |} in
  let this2 := {| currentText := text; this_metrics := m |} in
  let analysis := performDetailedAnalysis toLowerCase this2 text in
  analyzeText toLowerCase this text
  = ({| aiScore := snd analysis; details := DetailsBase m (fst analysis);
        metrics := m |}, this2).
Proof.
  intros H. unfold analyzeText. rewrite H. reflexivity.
Qed.

Lemma analyzeText_blank (this : TextAnalyzer) (text : jsstring) :
  nonEmpty (trim text) = false ->
  analyzeText toLowerCase this text
  = ({| aiScore := 0; details := PleaseEnterText; metrics := getEmptyMetrics |},
     {| currentText := text; this_metrics := this_metrics this |}).
Proof.
  intros H. unfold analyzeText. rewrite H. reflexivity.
Qed.

(** The scorer, check by check: the score is the sum of the deltas of the
    checks that fire and the markers are those of the checks that fire, in
    the order of the checks. The conditions are those the code evaluates,
    turned into comparisons of counts. *)
Lemma performDetailedAnalysis_checks (this : TextAnalyzer) (text : jsstring) :
  let m := this_metrics this in
  let sentences := length (sentencesOf text) in
  let words := split isWhiteSpace (toLowerCase text) in
  let t := types (sentenceStats m) in
  let repeatedWords :=
    map (fun kv => {| word := fst kv; count := snd kv |})
        (filter (fun kv => moreThan (snd kv) 3) (entries (countWords words))) in
  let ratio := div (uniqueWords (vocabularyStats m)) (totalWords (vocabularyStats m)) in
  let long := 25 * sentences <? length words in
  let repeated := 0 <? length repeatedWords in
  let missing := 4 * length (transitions (sentenceStats m)) <? sentences in
  let plain := 7 * (simple t + compound t + complex t) <? 10 * simple t in
  let poor := 5 * uniqueWords (vocabularyStats m) <? 2 * totalWords (vocabularyStats m) in
  performDetailedAnalysis toLowerCase this text
  = ((if long then [{| type := structure; message := LongSentences;
                       severity := high |}] else [])
     ++ (if repeated then [{| type := vocabulary;
                              message := RepeatedWords (firstn 5 repeatedWords);
                              severity := medium |}] else [])
     ++ (if missing then [{| type := coherence; message := MissingTransitions;
                             severity := medium |}] else [])
     ++ (if plain then [{| type := structure; message := SimpleStructure;
                           severity := medium |}] else [])
     ++ (if poor then [{| type := vocabulary; message := PoorVocabulary ratio;
                          severity := high |}] else []),
     (delta long 15 + delta missing 10 + delta plain 10 + delta poor 20)%Z).
Proof.
  cbv zeta. unfold performDetailedAnalysis. cbv zeta.
  rewrite gt_div_25, count_lt_div_4, gt_div_7_10, lt_div_2_5.
  repeat case_ltb; reflexivity.
Qed.

Lemma performDetailedAnalysis_score_bounds (this : TextAnalyzer) (text : jsstring) :
  (0 <= snd (performDetailedAnalysis toLowerCase this text) <= 55)%Z.
Proof.
  rewrite performDetailedAnalysis_checks. cbv zeta. simpl snd. unfold delta.
  repeat case_ltb; lia.
Qed.

(** C4: a text that is empty or made of whitespace only is answered
    without running the pipeline: the score is 0, every statistic is zero
    or an empty list, the details are the fixed advisory text, there is no
    marker, and the metrics held by the analyzer are left as they were. *)
Theorem blank_text_short_circuits (this : TextAnalyzer) (text : jsstring) :
  Forall (fun c => isWhiteSpace c = true) text ->
  let r := fst (analyzeText toLowerCase this text) in
  let this' := snd (analyzeText toLowerCase this text) in
  r = {| aiScore := 0;
         details := PleaseEnterText;
         metrics :=
           {| vocabularyStats :=
                {| uniqueWords := 0; totalWords := 0; avgWordLength := Num 0;
                   commonWords := [] |};
              sentenceStats :=
                {| lengths := [];
                   types := {| simple := 0; compound := 0; complex := 0 |};
                   transitions := [] |} |} |}
  /\ markersOf r = []
  /\ this_metrics this' = this_metrics this.
Proof.
  intros H. cbv zeta.
  assert (B : nonEmpty (trim text) = false).
  { rewrite trim_whitespace; [reflexivity|].
    apply forallb_forall. now apply Forall_forall. }
  rewrite (analyzeText_blank this text B). repeat split.
Qed.

(** C8: on a text that is not blank, the three type counters add up to the
    number of non-empty sentences, which is also the number of entries of
    [lengths]: each sentence is counted under one type and only one. *)
Theorem type_counts_add_up_to_sentences (this : TextAnalyzer) (text : jsstring) :
  trim text <> [] ->
  let r := fst (analyzeText toLowerCase this text) in
  let t := types (sentenceStats (metrics r)) in
  simple t + compound t + complex t = length (sentencesOf text)
  /\ length (lengths (sentenceStats (metrics r))) = length (sentencesOf text).
Proof.
  intros H. cbv zeta.
  assert (B : nonEmpty (trim text) = true)
    by (destruct (trim text); [congruence | reflexivity]).
  rewrite (analyzeText_nonblank this text B). simpl. split.
  - exact (fold_countSentence_total (sentencesOf text)
             {| simple := 0; compound := 0; complex := 0 |}).
  - apply length_map.
Qed.

(** C9: in the vocabulary statistics of every result, [uniqueWords] is at
    most [totalWords]; [analyzeVocabularyStats] counts the non-empty
    tokens for the one and the distinct case-folded tokens for the other. *)
Theorem unique_words_at_most_total (this : TextAnalyzer) (text : jsstring) :
  let v := vocabularyStats (metrics (fst (analyzeText toLowerCase this text))) in
  let v' := analyzeVocabularyStats toLowerCase text in
  uniqueWords v <= totalWords v
  /\ uniqueWords v' <= totalWords v'
  /\ totalWords v' = length (tokens text)
  /\ uniqueWords v'
     = length (nodup jsstring_eq_dec (map toLowerCase (tokens text))).
Proof.
  cbv zeta.
  assert (V : uniqueWords (analyzeVocabularyStats toLowerCase text)
              <= totalWords (analyzeVocabularyStats toLowerCase text)).
  { simpl. etransitivity; [apply nodup_length_le | now rewrite length_map]. }
  split; [|repeat split; exact V].
  destruct (nonEmpty (trim text)) eqn:B.
  - rewrite (analyzeText_nonblank this text B). exact V.
  - rewrite (analyzeText_blank this text B). simpl. lia.
Qed.

(** C10: the score of every result is at most 55 (and not negative): it
    is the score of [performDetailedAnalysis], whose four score-carrying
    checks add 15, 10, 10 and 20, and nothing else adds to it. *)
Theorem score_at_most_55 (this : TextAnalyzer) (text : jsstring) :
  (0 <= aiScore (fst (analyzeText toLowerCase this text)) <= 55)%Z.
Proof.
  destruct (nonEmpty (trim text)) eqn:B.
  - rewrite (analyzeText_nonblank this text B). simpl.
    apply performDetailedAnalysis_score_bounds.
  - rewrite (analyzeText_blank this text B). simpl. lia.
Qed.

Lemma subsequence_filter {A : Type} (f : A -> bool) (l : list A) :
  subsequence (filter f l) l.
Proof.
  induction l as [|x l IH]; simpl; [constructor|].
  destruct (f x); now constructor.
Qed.

Lemma COMMON_TRANSITIONS_NoDup : NoDup COMMON_TRANSITIONS.
Proof.
  assert (E : nodup jsstring_eq_dec COMMON_TRANSITIONS = COMMON_TRANSITIONS)
    by (vm_compute; reflexivity).
  rewrite <- E. apply NoDup_nodup.
Qed.

(** C7: the transitions found in a document are the entries of the
    lexicon of 20 connectors whose lower-cased form is a substring of the
    lower-cased document, wherever it lies, in the order of the lexicon
    and without repetition. *)
Theorem transitions_are_lexicon_matches (text : jsstring) :
  let found := transitions (analyzeSentenceStructure toLowerCase text) in
  length COMMON_TRANSITIONS = 20
  /\ subsequence found COMMON_TRANSITIONS
  /\ (forall t, In t found <->
                In t COMMON_TRANSITIONS
                /\ substring (toLowerCase t) (toLowerCase text))
  /\ NoDup found.
Proof.
  cbv zeta. simpl transitions. unfold findTransitions. repeat split.
  - apply subsequence_filter.
  - now apply filter_In in H.
  - apply filter_In in H as [_ H]. now apply includes_substring.
  - intros [H1 H2]. apply filter_In. split; [exact H1|].
    now apply includes_substring.
  - apply NoDup_filter, COMMON_TRANSITIONS_NoDup.
Qed.

(** Where the scorer and the scoring table agree: when the text has a
    sentence and the whitespace split of the lower-cased text has no empty
    piece beyond the tokens, the score is the sum of the deltas of the
    table. *)
Lemma score_agrees_with_table (this : TextAnalyzer) (text : jsstring) :
  trim text <> [] ->
  sentencesOf text <> [] ->
  length (split isWhiteSpace (toLowerCase text)) = length (tokens text) ->
  let r := fst (analyzeText toLowerCase this text) in
  aiScore r = tableScore (metrics r).
Proof.
  intros H S W. cbv zeta.
  assert (B : nonEmpty (trim text) = true)
    by (destruct (trim text); [congruence | reflexivity]).
  rewrite (analyzeText_nonblank this text B). cbv zeta.
  cbn [fst aiScore metrics].
  rewrite performDetailedAnalysis_checks. cbv zeta.
  cbn [snd this_metrics sentenceStats vocabularyStats].
  unfold tableScore, tableLongSentences, tableMissingTransitions,
    tableSimpleStructure, tablePoorVocabulary, sentenceCount.
  cbn [sentenceStats vocabularyStats].
  pose proof (fold_countSentence_total (sentencesOf text)
                {| simple := 0; compound := 0; complex := 0 |}) as T.
  cbv zeta in T. simpl in T.
  unfold analyzeSentenceStructure, analyzeVocabularyStats.
  cbn [lengths types transitions totalWords uniqueWords].
  rewrite T, length_map, W. fold (tokens text).
  replace (0 <? length (sentencesOf text)) with true; [reflexivity|].
  symmetry. apply Nat.ltb_lt. destruct (sentencesOf text); [congruence | simpl; lia].
Qed.

(** A text that is not blank and has no sentence: the quotient of the
    sentence-length check is [Infinity], so the check fires. *)
Lemma no_sentence_long_sentences_fires (this : TextAnalyzer) (text : jsstring) :
  trim text <> [] ->
  sentencesOf text = [] ->
  let r := fst (analyzeText toLowerCase this text) in
  In {| type := structure; message := LongSentences; severity := high |}
     (markersOf r)
  /\ (15 <= aiScore r)%Z.
Proof.
  intros H S. cbv zeta.
  assert (B : nonEmpty (trim text) = true)
    by (destruct (trim text); [congruence | reflexivity]).
  rewrite (analyzeText_nonblank this text B). cbv zeta.
  unfold markersOf. cbn [fst aiScore details].
  rewrite performDetailedAnalysis_checks. cbv zeta.
  cbn [fst snd]. rewrite S. simpl length.
  pose proof (split_length_pos isWhiteSpace (toLowerCase text)) as P.
  replace (25 * 0 <? length (split isWhiteSpace (toLowerCase text))) with true
    by (symmetry; apply Nat.ltb_lt; lia).
  split; [now left|].
  unfold delta. repeat case_ltb; lia.
Qed.

(** What [lengths] holds: for each kept sentence, the number of its
    tokens, plus one when the sentence begins with whitespace and one when
    it ends with whitespace. *)
Lemma lengths_entries (text : jsstring) :
  lengths (analyzeSentenceStructure toLowerCase text)
  = map (fun s => length (tokens s)
                  + Nat.b2n (beginsWith isWhiteSpace s)
                  + Nat.b2n (endsWith isWhiteSpace s))
        (sentencesOf text).
Proof.
  simpl lengths. apply map_ext_in. intros s Hs.
  apply split_length_pieces. intros ->.
  apply filter_In in Hs as [_ Hs]. discriminate.
Qed.

End Properties.

(** ** Sentence classification *)

Lemma complexRule_includes (sentence : jsstring) :
  complexRule sentence <->
  includes sentence (js ",")
  && (includes sentence (js "qui") || includes sentence (js "que")) = true.
Proof.
  unfold complexRule, substring.
  now rewrite andb_true_iff, orb_true_iff, !includes_substring.
Qed.

Lemma compoundRule_includes (sentence : jsstring) :
  compoundRule sentence <->
  includes sentence (js ",") || includes sentence (js "et")
  || includes sentence (js "ou") = true.
Proof.
  unfold compoundRule, substring.
  rewrite !orb_true_iff, !includes_substring. tauto.
Qed.

Lemma classified_unique (sentence : jsstring) (k k' : SentenceType) :
  classified sentence k -> classified sentence k' -> k = k'.
Proof.
  intros Hk Hk'. inversion Hk; inversion Hk'; subst; try reflexivity;
    contradiction.
Qed.

(** C5: every sentence falls under one type and only one, by the rule
    "complex when it has a comma and one of the substrings qui, que;
    otherwise compound when it has a comma or one of the substrings et,
    ou; otherwise simple", and the counter of that type is the one that
    goes up. The three sentences of the specification come out complex,
    compound and simple. *)
Theorem sentence_classification (t : SentenceTypes) (sentence : jsstring) :
  (exists k, classified sentence k
             /\ (forall k', classified sentence k' -> k' = k)
             /\ countSentence t sentence = increase k t)
  /\ (forall toLowerCase,
         types (analyzeSentenceStructure toLowerCase
                  (js "Le chat, qui dort, est mignon."))
         = {| simple := 0; compound := 0; complex := 1 |}
         /\ types (analyzeSentenceStructure toLowerCase
                     (js "Le chat et le chien jouent"))
            = {| simple := 0; compound := 1; complex := 0 |}
         /\ types (analyzeSentenceStructure toLowerCase (js "Le chat dort"))
            = {| simple := 1; compound := 0; complex := 0 |})
  /\ classified (js "Le chat, qui dort, est mignon.") Complex
  /\ classified (js "Le chat et le chien jouent") Compound
  /\ classified (js "Le chat dort") Simple.
Proof.
  split; [|split; [intros f; repeat split|]].
  - assert (E : exists k, classified sentence k
                          /\ countSentence t sentence = increase k t).
    { unfold countSentence.
      destruct (includes sentence (js ",")
                && (includes sentence (js "qui") || includes sentence (js "que")))
        eqn:C.
      - exists Complex. split; [|reflexivity].
        constructor. now apply complexRule_includes.
      - assert (NC : ~ complexRule sentence)
          by (rewrite complexRule_includes; congruence).
        destruct (includes sentence (js ",") || includes sentence (js "et")
                  || includes sentence (js "ou")) eqn:D.
        + exists Compound. split; [|reflexivity].
          constructor; [exact NC | now apply compoundRule_includes].
        + exists Simple. split; [|reflexivity].
          constructor; [exact NC | rewrite compoundRule_includes; congruence]. }
    destruct E as [k [Hk E]]. exists k. repeat split; [exact Hk | | exact E].
    intros k' Hk'. exact (classified_unique sentence k' k Hk' Hk).
  - repeat split.
    + constructor. apply complexRule_includes. reflexivity.
    + constructor.
      * rewrite complexRule_includes. vm_compute. discriminate.
      * apply compoundRule_includes. reflexivity.
    + constructor.
      * rewrite complexRule_includes. vm_compute. discriminate.
      * rewrite compoundRule_includes. vm_compute. discriminate.
Qed.

(** ** The pipeline on particular texts *)

Example split_whitespace_keeps_empty_ends :
  split isWhiteSpace (js " a  b ") = [js ""; js "a"; js "b"; js ""].
Proof. reflexivity. Qed.

Example split_sentence_ends :
  split isSentenceEnd (js "A. B?!") = [js "A"; js " B"; js ""].
Proof. reflexivity. Qed.

Example js_latin1 : js "é" = [233%N].
Proof. reflexivity. Qed.

Example trim_both_ends : trim (js "  a b  ") = js "a b".
Proof. reflexivity. Qed.

Example transitions_ignore_case_and_word_boundaries :
  findTransitions toLowerCaseLatin1 (js "Premièrement, DONC le chat dort")
  = [js "premièrement"; js "or"; js "donc"].
Proof. reflexivity. Qed.

(** C1: the text "..." is not blank and has no sentence. The sentence
    length check is not skipped: its quotient is 1/0, the structure marker
    of severity high is emitted and the score is 15. *)
Theorem punctuation_only_text_is_scored :
  let text := js "..." in
  let r := fst (analyzeText toLowerCaseLatin1 newTextAnalyzer text) in
  trim text <> []
  /\ sentencesOf text = []
  /\ markersOf r
     = [{| type := structure; message := LongSentences; severity := high |}]
  /\ aiScore r = 15%Z
  /\ tableScore (metrics r) = 0%Z.
Proof.
  cbv zeta. split; [vm_compute; discriminate | vm_compute; repeat split].
Qed.

(** C2: a text of one sentence of 25 words after a leading space. The
    scorer returns 35 with three markers; the conditions of the scoring
    table that hold (too few transitions, too many simple sentences) sum
    to 20: the average sentence length is 25, not above 25. *)
Theorem score_differs_from_table_sum :
  let text := js " a b c d e f g h i j k l m n o p q r s t u v w x y." in
  let r := fst (analyzeText toLowerCaseLatin1 newTextAnalyzer text) in
  trim text <> []
  /\ aiScore r = 35%Z
  /\ markersOf r
     = [{| type := structure; message := LongSentences; severity := high |};
        {| type := coherence; message := MissingTransitions; severity := medium |};
        {| type := structure; message := SimpleStructure; severity := medium |}]
  /\ totalWords (vocabularyStats (metrics r)) = 25
  /\ sentenceCount (metrics r) = 1
  /\ tableLongSentences (metrics r) = false
  /\ tableScore (metrics r) = 20%Z.
Proof.
  cbv zeta. split; [vm_compute; discriminate | vm_compute; repeat split].
Qed.

(** C3: a text of one sentence of 25 words followed by a space. The
    quotient [totalWords / sentenceCount] is 25, yet the quotient the
    scorer forms is 26: the split of the lower-cased text has an empty
    piece after the last space, and the structure marker fires with 15. *)
Theorem long_sentences_fires_at_25_words :
  let text := js "a b c d e f g h i j k l m n o p q r s t u v w x y. " in
  let r := fst (analyzeText toLowerCaseLatin1 newTextAnalyzer text) in
  length (tokens text) = 25
  /\ totalWords (vocabularyStats (metrics r)) = 25
  /\ length (sentencesOf text) = 1
  /\ length (split isWhiteSpace (toLowerCaseLatin1 text)) = 26
  /\ In {| type := structure; message := LongSentences; severity := high |}
        (markersOf r)
  /\ aiScore r = 35%Z.
Proof.
  cbv zeta. vm_compute. repeat split. now left.
Qed.

(** C6: in "A. B" the second sentence is kept with its leading space, and
    its entry of [lengths] is 2 although it has one token. *)
Theorem lengths_count_empty_piece :
  let text := js "A. B" in
  sentencesOf text = [js "A"; js " B"]
  /\ (forall toLowerCase,
         lengths (analyzeSentenceStructure toLowerCase text) = [1; 2])
  /\ map (fun s => length (tokens (trim s))) (sentencesOf text) = [1; 1].
Proof.
  cbv zeta. repeat split.
Qed.

(** * Further properties of the pipeline *)

(** ** Splitting *)

Lemma split_concat (sep : codeunit -> bool) (s : jsstring) :
  concat (split sep s) = filter (fun c => negb (sep c)) s.
Proof.
  induction s as [|c s IH]; [reflexivity|].
  destruct s as [|c' s].
  - simpl. destruct (sep c); reflexivity.
  - change (split sep (c :: c' :: s)) with
      (if sep c
       then if sep c' then split sep (c' :: s) else [] :: split sep (c' :: s)
       else match split sep (c' :: s) with
            | piece :: rest => (c :: piece) :: rest
            | [] => [[c]]
            end).
    change (filter (fun c0 => negb (sep c0)) (c :: c' :: s)) with
      (if negb (sep c) then c :: filter (fun c0 => negb (sep c0)) (c' :: s)
       else filter (fun c0 => negb (sep c0)) (c' :: s)).
    destruct (sep c); simpl negb; cbv iota.
    + destruct (sep c'); exact IH.
    + destruct (split_cons sep (c' :: s)) as [piece [rest E]].
      rewrite E in *. simpl in *. now rewrite IH.
Qed.

Lemma split_pieces_clean (sep : codeunit -> bool) (s : jsstring) :
  Forall (fun piece => forallb (fun c => negb (sep c)) piece = true) (split sep s).
Proof.
  induction s as [|c s IH]; [repeat constructor|].
  destruct s as [|c' s].
  - simpl. destruct (sep c) eqn:Hc; repeat constructor. simpl. now rewrite Hc.
  - change (split sep (c :: c' :: s)) with
      (if sep c
       then if sep c' then split sep (c' :: s) else [] :: split sep (c' :: s)
       else match split sep (c' :: s) with
            | piece :: rest => (c :: piece) :: rest
            | [] => [[c]]
            end).
    destruct (sep c) eqn:Hc.
    + destruct (sep c'); [exact IH | now constructor].
    + destruct (split_cons sep (c' :: s)) as [piece [rest E]].
      rewrite E in *. inversion IH; subst. constructor; [|assumption].
      simpl. rewrite Hc. assumption.
Qed.

Lemma concat_nonempty (l : list jsstring) :
  concat (filter (fun w => 0 <? length w) l) = concat l.
Proof.
  induction l as [|w l IH]; [reflexivity|].
  simpl. destruct w; simpl; now rewrite IH.
Qed.

Lemma tokens_concat (s : jsstring) :
  concat (tokens s) = filter (fun c => negb (isWhiteSpace c)) s.
Proof.
  unfold tokens. now rewrite concat_nonempty, split_concat.
Qed.

Lemma filter_nil_forallb (s : jsstring) :
  filter (fun c => negb (isWhiteSpace c)) s = [] <-> forallb isWhiteSpace s = true.
Proof.
  induction s as [|c s IH]; simpl; [tauto|].
  destruct (isWhiteSpace c); simpl; [exact IH|]. split; discriminate.
Qed.

Lemma tokens_nil_blank (s : jsstring) :
  tokens s = [] <-> forallb isWhiteSpace s = true.
Proof.
  rewrite <- filter_nil_forallb, <- tokens_concat. split.
  - now intros ->.
  - unfold tokens. induction (split isWhiteSpace s) as [|w l IH]; [reflexivity|].
    simpl. destruct w as [|c w]; simpl; [exact IH | discriminate].
Qed.

Lemma fold_add_length (l : list jsstring) (a : nat) :
  fold_left Nat.add (map (@length codeunit) l) a = a + length (concat l).
Proof.
  revert a; induction l as [|w l IH]; intros a; simpl; [lia|].
  rewrite IH, length_app. lia.
Qed.

(** ** Frequency tables *)

Lemma jsstring_eqb_eq (s t : jsstring) : jsstring_eqb s t = true <-> s = t.
Proof.
  unfold jsstring_eqb. destruct (jsstring_eq_dec s t); split; congruence.
Qed.

Lemma jsstring_eqb_refl (s : jsstring) : jsstring_eqb s s = true.
Proof. now apply jsstring_eqb_eq. Qed.

Lemma jsstring_eqb_neq (s t : jsstring) : s <> t -> jsstring_eqb s t = false.
Proof.
  intros H. destruct (jsstring_eqb s t) eqn:E; [|reflexivity].
  now apply jsstring_eqb_eq in E.
Qed.

Lemma hasOwn_own (o : frequencyTable) (k : jsstring) :
  hasOwn o k = match own o k with Some _ => true | None => false end.
Proof.
  induction o as [|[k' v] o IH]; simpl; [reflexivity|].
  destruct (jsstring_eqb k' k); [reflexivity | exact IH].
Qed.

Lemma hasOwn_In (o : frequencyTable) (k : jsstring) :
  hasOwn o k = true <-> In k (map fst o).
Proof.
  induction o as [|[k' v] o IH]; simpl; [split; [discriminate | tauto]|].
  rewrite orb_true_iff, jsstring_eqb_eq, IH. tauto.
Qed.

Lemma increment_keys (o : frequencyTable) (k : jsstring) :
  map fst (increment o k) = map fst o.
Proof.
  induction o as [|[k' v] o IH]; simpl; [reflexivity|].
  destruct (jsstring_eqb k' k); simpl; [reflexivity | now rewrite IH].
Qed.

(** One more occurrence of key [k], on the value [e] under [k]. *)
Lemma own_increment (o : frequencyTable) (k k' : jsstring) :
  own (increment o k) k'
  = if jsstring_eqb k k'
    then match own o k with
         | Some (Times n) => Some (Times (n + 1))
         | e => e
         end
    else own o k'.
Proof.
  induction o as [|[k0 v] o IH]; simpl.
  - now destruct (jsstring_eqb k k').
  - destruct (jsstring_eqb k0 k) eqn:E0; simpl.
    + apply jsstring_eqb_eq in E0. subst k0.
      destruct (jsstring_eqb k k'); [now destruct v | reflexivity].
    + destruct (jsstring_eqb k0 k') eqn:E1; [|exact IH].
      apply jsstring_eqb_eq in E1. subst k0.
      destruct (jsstring_eqb k k') eqn:E2; [|reflexivity].
      apply jsstring_eqb_eq in E2. subst k'. now rewrite jsstring_eqb_refl in E0.
Qed.

Lemma own_app (o : frequencyTable) (k k' : jsstring) (v : entry) :
  own (o ++ [(k, v)]) k'
  = match own o k' with
    | Some e => Some e
    | None => if jsstring_eqb k k' then Some v else None
    end.
Proof.
  induction o as [|[k0 v0] o IH]; simpl; [reflexivity|].
  destruct (jsstring_eqb k0 k'); [reflexivity | exact IH].
Qed.

Lemma own_bump (o : frequencyTable) (k k' : jsstring) :
  own (bump o k) k'
  = if jsstring_eqb k k'
    then match own o k with
         | Some (Times n) => Some (Times (n + 1))
         | Some Text => Some Text
         | None => counted k 1
         end
    else own o k'.
Proof.
  unfold bump, counted. rewrite hasOwn_own.
  destruct (own o k) as [e|] eqn:E.
  - rewrite own_increment, E. now destruct e.
  - destruct (jsstring_eqb k k') eqn:Ek.
    + apply jsstring_eqb_eq in Ek. subst k'.
      destruct (jsstring_eqb k (js "__proto__")); [exact E|].
      destruct (existsb (jsstring_eqb k) inheritedMethods);
        now rewrite own_app, E, jsstring_eqb_refl.
    + destruct (jsstring_eqb k (js "__proto__")); [reflexivity|].
      destruct (existsb (jsstring_eqb k) inheritedMethods);
        rewrite own_app, Ek; now destruct (own o k').
Qed.

Lemma bump_keys_NoDup (o : frequencyTable) (k : jsstring) :
  NoDup (map fst o) -> NoDup (map fst (bump o k)).
Proof.
  intros H. unfold bump. destruct (hasOwn o k) eqn:E.
  - now rewrite increment_keys.
  - assert (N : ~ In k (map fst o)).
    { intros I. apply hasOwn_In in I. congruence. }
    assert (A : forall v, NoDup (map fst (o ++ [(k, v)]))).
    { intros v. rewrite map_app. simpl.
      apply NoDup_app; [exact H | repeat constructor; intros [] | ].
      intros a Ha [<- | []]. contradiction. }
    destruct (jsstring_eqb k (js "__proto__")); [exact H|].
    destruct (existsb (jsstring_eqb k) inheritedMethods); apply A.
Qed.

Lemma fold_bump_keys_NoDup (ks : list jsstring) (o : frequencyTable) :
  NoDup (map fst o) -> NoDup (map fst (fold_left bump ks o)).
Proof.
  revert o; induction ks as [|k ks IH]; intros o H; simpl; [exact H|].
  apply IH, bump_keys_NoDup, H.
Qed.

Lemma counted_succ (k : jsstring) (n : nat) :
  match counted k n with
  | Some (Times c) => Some (Times (c + 1))
  | Some Text => Some Text
  | None => counted k 1
  end = counted k (S n).
Proof.
  destruct n as [|n]; [reflexivity|]. unfold counted.
  destruct (jsstring_eqb k (js "__proto__")); [reflexivity|].
  destruct (existsb (jsstring_eqb k) inheritedMethods); [reflexivity|].
  now rewrite Nat.add_1_r.
Qed.

Lemma own_fold_bump (ks : list jsstring) (o : frequencyTable) (k : jsstring) :
  own (fold_left bump ks o) k
  = Nat.iter (count_occ jsstring_eq_dec ks k)
      (fun e => match e with
                | Some (Times n) => Some (Times (n + 1))
                | Some Text => Some Text
                | None => counted k 1
                end)
      (own o k).
Proof.
  revert o; induction ks as [|a ks IH]; intros o; [reflexivity|].
  simpl fold_left. rewrite IH, own_bump. simpl count_occ.
  destruct (jsstring_eq_dec a k) as [->|N].
  - now rewrite jsstring_eqb_refl, Nat.iter_succ_r.
  - now rewrite jsstring_eqb_neq.
Qed.

Lemma own_fold_bump_empty (ks : list jsstring) (k : jsstring) :
  own (fold_left bump ks []) k = counted k (count_occ jsstring_eq_dec ks k).
Proof.
  rewrite own_fold_bump. simpl own.
  induction (count_occ jsstring_eq_dec ks k) as [|n IH]; [reflexivity|].
  rewrite Nat.iter_succ, IH. apply counted_succ.
Qed.

Lemma fold_left_filter {A B : Type} (p : B -> bool) (f : A -> B -> A)
      (l : list B) (a : A) :
  fold_left (fun o w => if p w then f o w else o) l a
  = fold_left f (filter p l) a.
Proof.
  revert a; induction l as [|w l IH]; intros a; simpl; [reflexivity|].
  destruct (p w); simpl; apply IH.
Qed.

Lemma countWords_fold (words : list jsstring) :
  countWords words = fold_left bump (longWords words) [].
Proof. apply fold_left_filter. Qed.

Lemma count_occ_longWords (words : list jsstring) (k : jsstring) :
  count_occ jsstring_eq_dec (longWords words) k
  = if 3 <? length k then count_occ jsstring_eq_dec words k else 0.
Proof.
  unfold longWords. induction words as [|w l IH]; simpl.
  - now destruct (3 <? length k).
  - destruct (jsstring_eq_dec w k) as [->|N].
    + destruct (3 <? length k); simpl; [|exact IH].
      destruct (jsstring_eq_dec k k); [now rewrite IH | congruence].
    + destruct (3 <? length w); simpl; [|exact IH].
      destruct (jsstring_eq_dec w k); [congruence | exact IH].
Qed.

Lemma own_In (o : frequencyTable) (k : jsstring) (v : entry) :
  NoDup (map fst o) -> (In (k, v) o <-> own o k = Some v).
Proof.
  induction o as [|[k0 v0] o IH]; simpl; intros H.
  - split; [tauto | discriminate].
  - inversion H as [|? ? N H']; subst.
    destruct (jsstring_eqb k0 k) eqn:E.
    + apply jsstring_eqb_eq in E. subst k0. split.
      * intros [I | I]; [congruence|]. exfalso. apply N.
        now apply (in_map fst) in I.
      * intros I. left. congruence.
    + rewrite <- (IH H'). split; [|tauto].
      intros [I | I]; [|exact I]. injection I as -> ->.
      now rewrite jsstring_eqb_refl in E.
Qed.

Lemma insertIndex_perm (e : N * (jsstring * entry)) l :
  Permutation (insertIndex e l) (e :: l).
Proof.
  induction l as [|e' l IH]; simpl; [reflexivity|].
  destruct (fst e <? fst e')%N; [reflexivity|].
  rewrite IH. apply perm_swap.
Qed.

Lemma entries_perm (o : frequencyTable) : Permutation (entries o) o.
Proof.
  unfold entries. induction o as [|kv o IH]; simpl; [reflexivity|].
  destruct (arrayIndex (fst kv)).
  - rewrite insertIndex_perm. simpl. now constructor.
  - simpl. rewrite <- Permutation_middle. now constructor.
Qed.

Lemma insertSorted_perm (x : jsstring * entry) (l : frequencyTable) :
  Permutation (insertSorted x l) (x :: l).
Proof.
  induction l as [|y l IH]; simpl; [reflexivity|].
  destruct (before y x); [|reflexivity].
  rewrite IH. apply perm_swap.
Qed.

Lemma sortByCount_perm (l : frequencyTable) : Permutation (sortByCount l) l.
Proof.
  unfold sortByCount. induction l as [|x l IH]; simpl; [reflexivity|].
  rewrite insertSorted_perm. now constructor.
Qed.

(** ** Segmentation and tokenisation *)

Lemma split_head_prefix (sep : codeunit -> bool) (s : jsstring) :
  exists piece rest post, split sep s = piece :: rest /\ s = piece ++ post.
Proof.
  induction s as [|c s IH].
  - now exists [], [], [].
  - destruct s as [|c' s].
    + simpl. destruct (sep c); [now exists [], [[]], [c] | now exists [c], [], []].
    + change (split sep (c :: c' :: s)) with
        (if sep c
         then if sep c' then split sep (c' :: s) else [] :: split sep (c' :: s)
         else match split sep (c' :: s) with
              | piece :: rest => (c :: piece) :: rest
              | [] => [[c]]
              end).
      destruct IH as [piece [rest [post [E P]]]].
      destruct (sep c) eqn:Hc.
      * destruct (sep c') eqn:Hc'.
        -- destruct (split_begins sep c' s Hc') as [rest' E'].
           exists [], rest', (c :: c' :: s). now rewrite E'.
        -- now exists [], (split sep (c' :: s)), (c :: c' :: s).
      * rewrite E. exists (c :: piece), rest, post. now rewrite P.
Qed.

Lemma split_pieces_substring (sep : codeunit -> bool) (s : jsstring) :
  Forall (fun piece => substring piece s) (split sep s).
Proof.
  assert (W : forall c s' l, Forall (fun piece => substring piece s') l ->
                             Forall (fun piece => substring piece (c :: s')) l).
  { intros c s' l H. eapply Forall_impl; [|exact H].
    intros p [pre [post ->]]. now exists (c :: pre), post. }
  induction s as [|c s IH].
  - repeat constructor. now exists [], [].
  - destruct s as [|c' s].
    + simpl. destruct (sep c); repeat constructor.
      * now exists [], [c].
      * now exists [c], [].
      * now exists [], [].
    + change (split sep (c :: c' :: s)) with
        (if sep c
         then if sep c' then split sep (c' :: s) else [] :: split sep (c' :: s)
         else match split sep (c' :: s) with
              | piece :: rest => (c :: piece) :: rest
              | [] => [[c]]
              end).
      destruct (sep c).
      * destruct (sep c'); [now apply W|].
        constructor; [now exists [], (c :: c' :: s) | now apply W].
      * destruct (split_head_prefix sep (c' :: s)) as [piece [rest [post [E P]]]].
        rewrite E in *. inversion IH; subst. constructor; [|now apply W].
        exists [], post. simpl. now rewrite <- P.
Qed.

Lemma forallb_concat (p : codeunit -> bool) (l : list jsstring) :
  forallb p (concat l) = forallb (forallb p) l.
Proof.
  induction l as [|w l IH]; [reflexivity|].
  simpl. now rewrite forallb_app, IH.
Qed.

Lemma kept_sentence_blank (s : jsstring) :
  (0 <? length (trim s)) = negb (forallb isWhiteSpace s).
Proof.
  destruct (forallb isWhiteSpace s) eqn:B.
  - now rewrite (trim_whitespace s B).
  - destruct (trim s) eqn:T; [|reflexivity].
    apply trim_nil_whitespace in T. congruence.
Qed.

(** X1: every sentence that the segmentation keeps is a piece of the text
    as it stands (a substring, not trimmed), holds none of the characters
    . ! ? and holds a character that is not whitespace. *)
Theorem sentences_are_clean_pieces (text : jsstring) :
  Forall (fun s => substring s text
                   /\ (forall c, In c s -> isSentenceEnd c = false)
                   /\ (exists c, In c s /\ isWhiteSpace c = false))
         (sentencesOf text).
Proof.
  unfold sentencesOf. apply Forall_forall. intros s Hs.
  apply filter_In in Hs as [Hs K].
  pose proof (split_pieces_substring isSentenceEnd text) as S.
  pose proof (split_pieces_clean isSentenceEnd text) as C.
  rewrite Forall_forall in S, C. repeat split.
  - now apply S.
  - intros c Hc. specialize (C s Hs). rewrite forallb_forall in C.
    specialize (C c Hc). now destruct (isSentenceEnd c).
  - rewrite kept_sentence_blank in K. apply negb_true_iff in K.
    clear - K. induction s as [|c s IH]; [discriminate|].
    simpl in K. destruct (isWhiteSpace c) eqn:W.
    + destruct (IH K) as [c' [I W']]. exists c'. split; [now right | exact W'].
    + exists c. split; [now left | exact W].
Qed.

(** X2: the text has no sentence exactly when it is made of whitespace
    and of the characters . ! ? only. *)
Theorem no_sentence_iff_only_punctuation (text : jsstring) :
  sentencesOf text = []
  <-> forallb (fun c => isSentenceEnd c || isWhiteSpace c) text = true.
Proof.
  assert (E : forallb (fun c => isSentenceEnd c || isWhiteSpace c) text
              = forallb isWhiteSpace (filter (fun c => negb (isSentenceEnd c)) text)).
  { induction text as [|c s IH]; [reflexivity|].
    simpl. destruct (isSentenceEnd c); simpl; now rewrite IH. }
  rewrite E, <- split_concat, forallb_concat. unfold sentencesOf.
  induction (split isSentenceEnd text) as [|p l IH]; simpl; [tauto|].
  rewrite kept_sentence_blank.
  destruct (forallb isWhiteSpace p); simpl; [exact IH|].
  split; discriminate.
Qed.

(** X3: the words of the vocabulary statistics are pieces of the text,
    not empty and free of whitespace, and put end to end they are the text
    without its whitespace: tokenising drops whitespace and nothing else. *)
Theorem tokens_partition_text (text : jsstring) :
  Forall (fun w => substring w text
                   /\ w <> []
                   /\ (forall c, In c w -> isWhiteSpace c = false))
         (tokens text)
  /\ concat (tokens text) = filter (fun c => negb (isWhiteSpace c)) text.
Proof.
  split; [|apply tokens_concat].
  unfold tokens. apply Forall_forall. intros w Hw.
  apply filter_In in Hw as [Hw K].
  pose proof (split_pieces_substring isWhiteSpace text) as S.
  pose proof (split_pieces_clean isWhiteSpace text) as C.
  rewrite Forall_forall in S, C. repeat split.
  - now apply S.
  - intros ->. discriminate.
  - intros c Hc. specialize (C w Hw). rewrite forallb_forall in C.
    specialize (C c Hc). now destruct (isWhiteSpace c).
Qed.

Section MoreProperties.

Variable toLowerCase : jsstring -> jsstring.

Lemma nonEmpty_trim (text : jsstring) :
  nonEmpty (trim text) = negb (forallb isWhiteSpace text).
Proof.
  destruct (forallb isWhiteSpace text) eqn:B.
  - now rewrite (trim_whitespace text B).
  - destruct (trim text) eqn:T; [|reflexivity].
    apply trim_nil_whitespace in T. congruence.
Qed.

Lemma nodup_nonempty (l : list jsstring) :
  l <> [] -> 1 <= length (nodup jsstring_eq_dec l).
Proof.
  destruct l as [|w l]; [congruence|]. intros _.
  assert (I : In w (nodup jsstring_eq_dec (w :: l))) by (apply nodup_In; now left).
  destruct (nodup jsstring_eq_dec (w :: l)); [destruct I | simpl; lia].
Qed.

Lemma div_ratio (u n : nat) :
  1 <= u -> u <= n -> exists q, div u n = Num q /\ (0 < q <= 1)%Q.
Proof.
  intros U L. destruct n as [|n]; [lia|]. unfold div.
  eexists. split; [reflexivity|].
  rewrite Qred_correct. unfold Qlt, Qle. cbn [Qnum Qden].
  rewrite <- Pos.of_nat_succ. lia.
Qed.

(** X4: on a text that is not blank there is at least one word, so
    [1 <= uniqueWords <= totalWords] and the diversity ratio that the
    scorer forms is a number in (0, 1], never [NaN] or [Infinity]. *)
Theorem nonblank_text_has_words (this : TextAnalyzer) (text : jsstring) :
  trim text <> [] ->
  let v := vocabularyStats (metrics (fst (analyzeText toLowerCase this text))) in
  1 <= uniqueWords v <= totalWords v
  /\ exists q, div (uniqueWords v) (totalWords v) = Num q /\ (0 < q <= 1)%Q.
Proof.
  intros H. cbv zeta.
  assert (B : nonEmpty (trim text) = true)
    by (destruct (trim text); [congruence | reflexivity]).
  rewrite (analyzeText_nonblank toLowerCase this text B). cbv zeta.
  cbn [fst metrics vocabularyStats]. unfold analyzeVocabularyStats.
  cbn [uniqueWords totalWords]. fold (tokens text).
  assert (T : tokens text <> []).
  { intros E. apply tokens_nil_blank in E. rewrite nonEmpty_trim, E in B.
    discriminate. }
  assert (U : 1 <= length (nodup jsstring_eq_dec (map toLowerCase (tokens text)))).
  { apply nodup_nonempty. destruct (tokens text); [congruence | discriminate]. }
  assert (L : length (nodup jsstring_eq_dec (map toLowerCase (tokens text)))
              <= length (tokens text)).
  { etransitivity; [apply nodup_length_le | now rewrite length_map]. }
  split; [split; [exact U | exact L]|].
  exact (div_ratio _ _ U L).
Qed.

(** X5: on a blank text [analyzeVocabularyStats] returns the statistics
    of the empty metrics: the average word length is 0 and not the [NaN]
    of [0 / 0], and there is no common word. *)
Theorem blank_text_vocabulary_is_zero (text : jsstring) :
  Forall (fun c => isWhiteSpace c = true) text ->
  analyzeVocabularyStats toLowerCase text
  = {| uniqueWords := 0; totalWords := 0; avgWordLength := Num 0;
       commonWords := [] |}.
Proof.
  intros H. unfold analyzeVocabularyStats. cbv zeta. fold (tokens text).
  assert (T : tokens text = []).
  { apply tokens_nil_blank, forallb_forall. now apply Forall_forall. }
  rewrite T. reflexivity.
Qed.

Lemma concat_length_ge (l : list jsstring) :
  Forall (fun w => w <> []) l -> length l <= length (concat l).
Proof.
  induction 1 as [|w l Hw _ IH]; simpl; [lia|].
  rewrite length_app. destruct w; [congruence | simpl; lia].
Qed.

Lemma average_ratio (c n : nat) :
  1 <= n -> n <= c ->
  exists q, orZero (div c n) = Num q
            /\ (q == Z.of_nat c # Pos.of_nat n)%Q /\ (1 <= q)%Q.
Proof.
  intros P G. destruct n as [|n]; [lia|]. unfold div, orZero.
  eexists. split; [reflexivity|]. split.
  - apply Qred_correct.
  - rewrite Qred_correct. unfold Qle. cbn [Qnum Qden].
    rewrite <- Pos.of_nat_succ. lia.
Qed.

Lemma tokens_nonempty (s : jsstring) : Forall (fun w => w <> []) (tokens s).
Proof.
  unfold tokens. apply Forall_forall. intros w Hw.
  apply filter_In in Hw as [_ K]. intros ->. discriminate.
Qed.

(** X6: on a text that has a word, the average word length is the number
    of characters that are not whitespace divided by the number of words,
    and it is at least 1. *)
Theorem average_word_length (text : jsstring) :
  tokens text <> [] ->
  let v := analyzeVocabularyStats toLowerCase text in
  let characters := length (filter (fun c => negb (isWhiteSpace c)) text) in
  exists q, avgWordLength v = Num q
            /\ (q == Z.of_nat characters # Pos.of_nat (totalWords v))%Q
            /\ (1 <= q)%Q.
Proof.
  intros T. cbv zeta. unfold analyzeVocabularyStats. cbv zeta. fold (tokens text).
  cbn [avgWordLength totalWords].
  rewrite fold_add_length, tokens_concat. simpl plus.
  assert (G : length (tokens text)
              <= length (filter (fun c => negb (isWhiteSpace c)) text)).
  { rewrite <- tokens_concat. apply concat_length_ge, tokens_nonempty. }
  assert (P : 1 <= length (tokens text))
    by (destruct (tokens text); [congruence | simpl; lia]).
  exact (average_ratio _ _ P G).
Qed.

(** X7: the result of [analyzeText] does not depend on the state the
    analyzer is in: the metrics of an earlier call are replaced before
    they are read. Afterwards [currentText] is the text, and [this.metrics]
    is the metrics of the result when the text is not blank and is left as
    it was when the text is blank. *)
Theorem result_independent_of_state (this1 this2 : TextAnalyzer) (text : jsstring) :
  fst (analyzeText toLowerCase this1 text) = fst (analyzeText toLowerCase this2 text)
  /\ currentText (snd (analyzeText toLowerCase this1 text)) = text
  /\ this_metrics (snd (analyzeText toLowerCase this1 text))
     = if nonEmpty (trim text)
       then metrics (fst (analyzeText toLowerCase this1 text))
       else this_metrics this1.
Proof.
  destruct (nonEmpty (trim text)) eqn:B.
  - rewrite (analyzeText_nonblank toLowerCase this1 text B),
      (analyzeText_nonblank toLowerCase this2 text B). repeat split.
  - rewrite (analyzeText_blank toLowerCase this1 text B),
      (analyzeText_blank toLowerCase this2 text B). repeat split.
Qed.

(** X8: [analyzeText] answers with the advisory text exactly when every
    character of the text is whitespace; in every other case the details
    are the report of the metrics of the result. *)
Theorem advisory_iff_blank (this : TextAnalyzer) (text : jsstring) :
  let r := fst (analyzeText toLowerCase this text) in
  (details r = PleaseEnterText <-> Forall (fun c => isWhiteSpace c = true) text)
  /\ (details r = PleaseEnterText
      \/ exists aiMarkers, details r = DetailsBase (metrics r) aiMarkers).
Proof.
  cbv zeta. rewrite Forall_forall, <- forallb_forall.
  destruct (nonEmpty (trim text)) eqn:B.
  - rewrite (analyzeText_nonblank toLowerCase this text B). cbv zeta.
    cbn [fst details metrics]. rewrite nonEmpty_trim in B.
    apply negb_true_iff in B. split.
    + split; [discriminate | congruence].
    + right. eexists. reflexivity.
  - rewrite (analyzeText_blank toLowerCase this text B).
    cbn [fst details]. rewrite nonEmpty_trim in B.
    apply negb_false_iff in B. split; [tauto | now left].
Qed.

(** X9: the score is the sum of the deltas that go with the markers of
    the result (15, 0, 10, 10 and 20 by message), and the markers come in
    the order of the checks, each check at most once, so there are at most
    five of them. *)
Theorem score_is_sum_of_marker_weights (this : TextAnalyzer) (text : jsstring) :
  let r := fst (analyzeText toLowerCase this text) in
  aiScore r = fold_right Z.add 0%Z (map (fun m => weight (message m)) (markersOf r))
  /\ StronglySorted (fun a b => rank (message a) < rank (message b)) (markersOf r)
  /\ length (markersOf r) <= 5.
Proof.
  cbv zeta. destruct (nonEmpty (trim text)) eqn:B.
  - rewrite (analyzeText_nonblank toLowerCase this text B). cbv zeta.
    unfold markersOf. cbn [fst aiScore details].
    rewrite performDetailedAnalysis_checks. cbv zeta. cbn [fst snd]. unfold delta.
    repeat case_ltb; simpl; (split; [reflexivity|]); (split; [|lia]);
      repeat constructor.
  - rewrite (analyzeText_blank toLowerCase this text B). simpl.
    repeat split; [constructor | lia].
Qed.


(** X10: on a text that is not blank the score is made of four terms,
    each a comparison of counts of the metrics of the result: 10 when four
    times the transitions are fewer than the sentences, 10 when more than
    seven tenths of the sentences are simple, 20 when fewer than two
    fifths of the words are distinct, and 15 when the pieces of the
    whitespace split of the lower-cased text (empty pieces included, at
    least one) are more than 25 times the sentences. *)
Theorem score_in_counts (this : TextAnalyzer) (text : jsstring) :
  trim text <> [] ->
  let r := fst (analyzeText toLowerCase this text) in
  let m := metrics r in
  let pieces := length (split isWhiteSpace (toLowerCase text)) in
  aiScore r
  = (delta (25 * sentenceCount m <? pieces)%nat 15
     + delta (4 * length (transitions (sentenceStats m)) <? sentenceCount m)%nat 10
     + delta (7 * sentenceCount m <? 10 * simple (types (sentenceStats m)))%nat 10
     + delta (5 * uniqueWords (vocabularyStats m)
              <? 2 * totalWords (vocabularyStats m))%nat 20)%Z
  /\ 1 <= pieces.
Proof.
  intros H. cbv zeta. split; [|apply split_length_pos].
  assert (B : nonEmpty (trim text) = true)
    by (destruct (trim text); [congruence | reflexivity]).
  rewrite (analyzeText_nonblank toLowerCase this text B). cbv zeta.
  cbn [fst aiScore metrics].
  rewrite performDetailedAnalysis_checks. cbv zeta.
  cbn [snd this_metrics sentenceStats vocabularyStats]. unfold sentenceCount.
  cbn [sentenceStats].
  pose proof (fold_countSentence_total (sentencesOf text)
                {| simple := 0; compound := 0; complex := 0 |}) as T.
  cbv zeta in T. simpl in T.
  unfold analyzeSentenceStructure.
  cbn [lengths types transitions]. rewrite T, length_map. reflexivity.
Qed.

(** X11: on a text that is not blank and has no sentence, the long
    sentences marker is always there, the markers for missing transitions
    and for simple structure never are, and the score is 15 or 35. *)
Theorem no_sentence_score (this : TextAnalyzer) (text : jsstring) :
  trim text <> [] ->
  sentencesOf text = [] ->
  let r := fst (analyzeText toLowerCase this text) in
  In {| type := structure; message := LongSentences; severity := high |}
     (markersOf r)
  /\ (forall m, In m (markersOf r) ->
                message m <> MissingTransitions /\ message m <> SimpleStructure)
  /\ (aiScore r = 15 \/ aiScore r = 35)%Z.
Proof.
  intros H S. cbv zeta.
  assert (B : nonEmpty (trim text) = true)
    by (destruct (trim text); [congruence | reflexivity]).
  rewrite (analyzeText_nonblank toLowerCase this text B). cbv zeta.
  unfold markersOf. cbn [fst aiScore details].
  rewrite performDetailedAnalysis_checks. cbv zeta.
  cbn [fst snd this_metrics sentenceStats vocabularyStats].
  unfold analyzeSentenceStructure. cbn [types transitions]. rewrite S.
  cbn [fold_left simple compound complex length].
  pose proof (split_length_pos isWhiteSpace (toLowerCase text)) as P.
  replace (25 * 0 <? length (split isWhiteSpace (toLowerCase text))) with true
    by (symmetry; apply Nat.ltb_lt; lia).
  replace (4 * length (findTransitions toLowerCase text) <? 0) with false
    by (symmetry; apply Nat.ltb_ge; lia).
  replace (7 * (0 + 0 + 0) <? 10 * 0) with false by reflexivity.
  unfold delta. split; [now left|].
  repeat case_ltb; simpl; (split; [|lia]); intros m Hm;
    intuition (subst; discriminate).
Qed.

End MoreProperties.

Lemma countSentence_typeOf (t : SentenceTypes) (sentence : jsstring) :
  countSentence t sentence = increase (typeOf sentence) t.
Proof.
  unfold countSentence, typeOf.
  destruct (includes sentence (js ",")
            && (includes sentence (js "qui") || includes sentence (js "que")));
    [reflexivity|].
  now destruct (includes sentence (js ",") || includes sentence (js "et")
                || includes sentence (js "ou")).
Qed.

Lemma classified_typeOf (sentence : jsstring) : classified sentence (typeOf sentence).
Proof.
  unfold typeOf.
  destruct (includes sentence (js ",")
            && (includes sentence (js "qui") || includes sentence (js "que")))
    eqn:C.
  - constructor. now apply complexRule_includes.
  - assert (NC : ~ complexRule sentence)
      by (rewrite complexRule_includes; congruence).
    destruct (includes sentence (js ",") || includes sentence (js "et")
              || includes sentence (js "ou")) eqn:D.
    + constructor; [exact NC | now apply compoundRule_includes].
    + constructor; [exact NC | rewrite compoundRule_includes; congruence].
Qed.

Lemma fold_countSentence_types (sentences : list jsstring) (t : SentenceTypes) :
  fold_left countSentence sentences t
  = {| simple := simple t
                 + count_occ SentenceType_eq_dec (map typeOf sentences) Simple;
       compound := compound t
                   + count_occ SentenceType_eq_dec (map typeOf sentences) Compound;
       complex := complex t
                  + count_occ SentenceType_eq_dec (map typeOf sentences) Complex |}.
Proof.
  revert t; induction sentences as [|s l IH]; intros t.
  - destruct t. simpl. now rewrite !Nat.add_0_r.
  - simpl fold_left. rewrite IH, countSentence_typeOf. simpl map.
    destruct (typeOf s); simpl; f_equal; lia.
Qed.

(** X12: each of the three counters is the number of kept sentences of
    its type, the type of a sentence being the one the classification
    rule gives it. *)
Theorem type_counters_count_their_type (toLowerCase : jsstring -> jsstring)
        (text : jsstring) :
  let kinds := map typeOf (sentencesOf text) in
  types (analyzeSentenceStructure toLowerCase text)
  = {| simple := count_occ SentenceType_eq_dec kinds Simple;
       compound := count_occ SentenceType_eq_dec kinds Compound;
       complex := count_occ SentenceType_eq_dec kinds Complex |}
  /\ Forall (fun s => classified s (typeOf s)) (sentencesOf text).
Proof.
  cbv zeta. split.
  - unfold analyzeSentenceStructure. cbn [types].
    now rewrite fold_countSentence_types.
  - apply Forall_forall. intros s _. apply classified_typeOf.
Qed.

(** X13: the entry of [lengths] for a sentence is the number of its
    tokens, plus one when the sentence (kept untrimmed) begins with
    whitespace and one when it ends with whitespace; it is never 0, since
    a kept sentence has a token. *)
Theorem lengths_count_split_pieces (toLowerCase : jsstring -> jsstring)
        (text : jsstring) :
  Forall2 (fun s n =>
             n = length (tokens s) + Nat.b2n (beginsWith isWhiteSpace s)
                 + Nat.b2n (endsWith isWhiteSpace s)
             /\ 1 <= length (tokens s) <= n)
          (sentencesOf text)
          (lengths (analyzeSentenceStructure toLowerCase text)).
Proof.
  rewrite lengths_entries.
  assert (K : Forall (fun s => tokens s <> []) (sentencesOf text)).
  { apply Forall_forall. intros s Hs. apply filter_In in Hs as [_ Hs].
    rewrite kept_sentence_blank in Hs. apply negb_true_iff in Hs.
    intros E. apply tokens_nil_blank in E. congruence. }
  induction K as [|s l Hs _ IH]; simpl; constructor; [|exact IH].
  split; [reflexivity|].
  destruct (tokens s); [congruence | simpl; lia].
Qed.

(** ** Word frequencies *)

Lemma inherited_In (k : jsstring) :
  existsb (jsstring_eqb k) inheritedMethods = true <-> In k inheritedMethods.
Proof.
  rewrite existsb_exists. split.
  - intros [x [I E]]. apply jsstring_eqb_eq in E. now subst.
  - intros I. exists k. split; [exact I | apply jsstring_eqb_refl].
Qed.

Lemma counted_Times (k : jsstring) (c n : nat) :
  counted k c = Some (Times n)
  <-> c = n /\ 0 < n /\ k <> js "__proto__" /\ ~ In k inheritedMethods.
Proof.
  rewrite <- inherited_In. unfold counted. destruct c as [|c].
  - split; [discriminate | intros [<- [H _]]; lia].
  - destruct (jsstring_eqb k (js "__proto__")) eqn:P.
    + apply jsstring_eqb_eq in P. split; [discriminate | tauto].
    + assert (k <> js "__proto__").
      { intros E. apply jsstring_eqb_eq in E. congruence. }
      destruct (existsb (jsstring_eqb k) inheritedMethods).
      * split; [discriminate | intros [_ [_ [_ N]]]; now elim N].
      * split.
        -- intros E. injection E as <-. repeat split; [lia | assumption | discriminate].
        -- intros [<- _]. reflexivity.
Qed.

Lemma counted_Some_In (ks : list jsstring) (k : jsstring) (v : entry) :
  counted k (count_occ jsstring_eq_dec ks k) = Some v -> In k ks.
Proof.
  intros H. apply (count_occ_In jsstring_eq_dec).
  destruct (count_occ jsstring_eq_dec ks k); [discriminate | lia].
Qed.

Lemma countWords_keys_NoDup (words : list jsstring) :
  NoDup (map fst (countWords words)).
Proof.
  rewrite countWords_fold. apply fold_bump_keys_NoDup. constructor.
Qed.

Lemma countWords_own (words : list jsstring) (k : jsstring) :
  own (countWords words) k
  = counted k (if 3 <? length k then count_occ jsstring_eq_dec words k else 0).
Proof.
  now rewrite countWords_fold, own_fold_bump_empty, count_occ_longWords.
Qed.

Lemma countWords_entries (words : list jsstring) (k : jsstring) (v : entry) :
  In (k, v) (entries (countWords words)) <-> own (countWords words) k = Some v.
Proof.
  rewrite <- (own_In _ _ _ (countWords_keys_NoDup words)).
  split; apply Permutation_in; [|symmetry]; apply entries_perm.
Qed.

(** X14: the table that [performDetailedAnalysis] fills holds each key
    once, and under a key the number of words equal to the key, provided
    the key is longer than three code units. A shorter key is absent, the
    key [__proto__] is absent, and the name of a method that every object
    inherits holds a text instead of a number. [Object.entries] lists the
    own properties and nothing else. *)
Theorem countWords_counts_occurrences (words : list jsstring) (k : jsstring) :
  NoDup (map fst (countWords words))
  /\ own (countWords words) k
     = counted k (if 3 <? length k
                  then count_occ jsstring_eq_dec words k else 0)
  /\ (forall v, In (k, v) (entries (countWords words))
                <-> own (countWords words) k = Some v).
Proof.
  split; [apply countWords_keys_NoDup|]. split; [apply countWords_own|].
  intros v. apply countWords_entries.
Qed.

Lemma repeated_entries (words : list jsstring) (k : jsstring) (v : entry) :
  In (k, v) (filter (fun kv => moreThan (snd kv) 3) (entries (countWords words)))
  <-> exists n, v = Times n /\ 3 < n /\ 3 < length k
                /\ n = count_occ jsstring_eq_dec words k
                /\ k <> js "__proto__" /\ ~ In k inheritedMethods.
Proof.
  rewrite filter_In, countWords_entries, countWords_own. simpl snd. split.
  - intros [E M]. destruct v as [n|]; [|discriminate].
    apply Nat.ltb_lt in M. apply counted_Times in E as [E [_ [P H]]].
    exists n. destruct (3 <? length k) eqn:L; [|lia].
    apply Nat.ltb_lt in L. repeat split; auto.
  - intros [n [-> [M [L [E [P H]]]]]]. split; [|now apply Nat.ltb_lt].
    apply counted_Times. apply Nat.ltb_lt in L. rewrite L.
    repeat split; auto; lia.
Qed.

Lemma firstn_subset {A : Type} (n : nat) (l : list A) (x : A) :
  In x (firstn n l) -> In x l.
Proof.
  intros H. rewrite <- (firstn_skipn n l). apply in_or_app. now left.
Qed.

Section WordFrequencies.

Variable toLowerCase : jsstring -> jsstring.

(** X15: the marker for repeated words is emitted exactly when some
    piece of the whitespace split of the lower-cased text, longer than
    three code units, occurs more than three times, [__proto__] and the
    names of inherited methods excepted. Its message lists between one
    and five words, each with its number of occurrences, above 3. *)
Theorem repeated_words_marker (this : TextAnalyzer) (text : jsstring) :
  let words := split isWhiteSpace (toLowerCase text) in
  let markers := fst (performDetailedAnalysis toLowerCase this text) in
  ((exists m listed, In m markers /\ message m = RepeatedWords listed)
   <-> exists w, 3 < length w /\ 3 < count_occ jsstring_eq_dec words w
                 /\ w <> js "__proto__" /\ ~ In w inheritedMethods)
  /\ (forall m listed,
         In m markers -> message m = RepeatedWords listed ->
         type m = vocabulary /\ severity m = medium
         /\ 1 <= length listed <= 5
         /\ Forall (fun wc => exists n,
                        count wc = Times n /\ 3 < n /\ 3 < length (word wc)
                        /\ n = count_occ jsstring_eq_dec words (word wc))
                   listed).
Proof.
  cbv zeta. rewrite performDetailedAnalysis_checks. cbv zeta. cbn [fst].
  set (words := split isWhiteSpace (toLowerCase text)).
  set (rw := filter (fun kv => moreThan (snd kv) 3) (entries (countWords words))).
  set (mk := fun kv : jsstring * entry => {| word := fst kv; count := snd kv |}).
  assert (R : (0 <? length (map mk rw)) = true
              <-> exists w, 3 < length w /\ 3 < count_occ jsstring_eq_dec words w
                            /\ w <> js "__proto__" /\ ~ In w inheritedMethods).
  { rewrite length_map. split.
    - intros L. destruct rw as [|[k v] rest] eqn:E; [discriminate|].
      assert (I : In (k, v) rw) by (rewrite E; now left).
      apply repeated_entries in I as [n [_ [M [Lk [-> [P H]]]]]].
      exists k. auto.
    - intros [w [Lw [M [P H]]]].
      assert (I : In (w, Times (count_occ jsstring_eq_dec words w)) rw).
      { apply repeated_entries. eexists. repeat split; eauto. }
      destruct rw; [destruct I | reflexivity]. }
  assert (F : Forall (fun wc => exists n,
                          count wc = Times n /\ 3 < n /\ 3 < length (word wc)
                          /\ n = count_occ jsstring_eq_dec words (word wc))
                     (firstn 5 (map mk rw))).
  { apply Forall_forall. intros wc Hwc. apply firstn_subset in Hwc.
    apply in_map_iff in Hwc as [[k v] [<- I]].
    apply repeated_entries in I as [n [-> [M [Lk [E _]]]]].
    exists n. simpl. auto. }
  assert (B : (0 <? length (map mk rw)) = true ->
              1 <= length (firstn 5 (map mk rw)) <= 5).
  { intros L. apply Nat.ltb_lt in L. rewrite length_firstn. lia. }
  assert (M : forall m listed,
             In m ((if 25 * length (sentencesOf text) <? length words
                    then [{| type := structure; message := LongSentences;
                             severity := high |}] else [])
                   ++ (if 0 <? length (map mk rw)
                       then [{| type := vocabulary;
                                message := RepeatedWords (firstn 5 (map mk rw));
                                severity := medium |}] else [])
                   ++ (if 4 * length (transitions (sentenceStats (this_metrics this)))
                          <? length (sentencesOf text)
                       then [{| type := coherence; message := MissingTransitions;
                                severity := medium |}] else [])
                   ++ (if 7 * (simple (types (sentenceStats (this_metrics this)))
                               + compound (types (sentenceStats (this_metrics this)))
                               + complex (types (sentenceStats (this_metrics this))))
                          <? 10 * simple (types (sentenceStats (this_metrics this)))
                       then [{| type := structure; message := SimpleStructure;
                                severity := medium |}] else [])
                   ++ (if 5 * uniqueWords (vocabularyStats (this_metrics this))
                          <? 2 * totalWords (vocabularyStats (this_metrics this))
                       then [{| type := vocabulary;
                                message :=
                                  PoorVocabulary
                                    (div (uniqueWords (vocabularyStats (this_metrics this)))
                                         (totalWords (vocabularyStats (this_metrics this))));
                                severity := high |}] else [])) ->
             message m = RepeatedWords listed ->
             (0 <? length (map mk rw)) = true
             /\ m = {| type := vocabulary;
                       message := RepeatedWords (firstn 5 (map mk rw));
                       severity := medium |}).
  { intros m listed I E.
    repeat (apply in_app_or in I; destruct I as [I | I]);
      match type of I with
      | In _ (if ?c then _ else _) => destruct c
      end; simpl in I; try contradiction;
      destruct I as [<- | []]; try discriminate. now split. }
  split.
  - rewrite <- R. split.
    + intros [m [listed [I E]]]. now apply (M m listed).
    + intros L. eexists. eexists. split.
      * apply in_or_app. right. apply in_or_app. left. rewrite L. now left.
      * reflexivity.
  - intros m listed I E. destruct (M m listed I E) as [L ->].
    simpl in E. injection E as <-. simpl. auto.
Qed.

Lemma fold_left_filter_map {A B : Type} (p : B -> bool) (g : B -> B)
      (f : A -> B -> A) (l : list B) (a : A) :
  fold_left (fun o w => if p w then f o (g w) else o) l a
  = fold_left f (map g (filter p l)) a.
Proof.
  revert a; induction l as [|w l IH]; intros a; simpl; [reflexivity|].
  destruct (p w); simpl; apply IH.
Qed.

Lemma NoDup_firstn {A : Type} (n : nat) (l : list A) :
  NoDup l -> NoDup (firstn n l).
Proof.
  intros H. rewrite <- (firstn_skipn n l) in H.
  now apply NoDup_app_remove_r in H.
Qed.

Lemma common_words_origin (words : list jsstring) (limit : nat) :
  let keys := map toLowerCase (longWords words) in
  Forall (fun wc =>
            (exists w, In w words /\ 3 < length w /\ word wc = toLowerCase w)
            /\ Some (count wc)
               = counted (word wc) (count_occ jsstring_eq_dec keys (word wc)))
         (getMostCommonWords toLowerCase words limit).
Proof.
  cbv zeta. unfold getMostCommonWords. cbv zeta.
  rewrite fold_left_filter_map. fold (longWords words).
  set (keys := map toLowerCase (longWords words)).
  set (o := fold_left bump keys []).
  assert (N : NoDup (map fst o)) by (apply fold_bump_keys_NoDup; constructor).
  assert (P : Permutation (sortByCount (entries o)) o).
  { rewrite sortByCount_perm. apply entries_perm. }
  apply Forall_forall. intros wc Hwc.
  apply in_map_iff in Hwc as [[k v] [<- I]]. apply firstn_subset in I.
  apply (Permutation_in _ P) in I. apply (own_In _ _ _ N) in I.
  unfold o in I. rewrite own_fold_bump_empty in I. simpl. split; [|now rewrite I].
  apply counted_Some_In in I. unfold keys in I.
  apply in_map_iff in I as [w [<- I]]. unfold longWords in I.
  apply filter_In in I as [I L]. apply Nat.ltb_lt in L. now exists w.
Qed.

(** X16: [getMostCommonWords] returns at most [limit] entries, no word
    twice; each listed word is the lower-case form of a word of the input
    that is longer than three code units, and it comes with the number of
    such words of the input (or with a text, when it is the name of an
    inherited method). *)
Theorem common_words_are_counted_long_words (words : list jsstring) (limit : nat) :
  let listed := getMostCommonWords toLowerCase words limit in
  let keys := map toLowerCase (longWords words) in
  length listed <= limit
  /\ NoDup (map word listed)
  /\ Forall (fun wc =>
               (exists w, In w words /\ 3 < length w /\ word wc = toLowerCase w)
               /\ Some (count wc)
                  = counted (word wc) (count_occ jsstring_eq_dec keys (word wc)))
            listed.
Proof.
  cbv zeta. split; [|split; [|apply common_words_origin]].
  - unfold getMostCommonWords. cbv zeta. rewrite length_map, length_firstn. lia.
  - unfold getMostCommonWords. cbv zeta.
    rewrite fold_left_filter_map. fold (longWords words).
    set (o := fold_left bump (map toLowerCase (longWords words)) []).
    assert (N : NoDup (map fst o)) by (apply fold_bump_keys_NoDup; constructor).
    assert (P : Permutation (sortByCount (entries o)) o).
    { rewrite sortByCount_perm. apply entries_perm. }
    rewrite map_map. simpl. rewrite <- firstn_map. apply NoDup_firstn.
    eapply Permutation_NoDup; [|exact N]. symmetry. now apply Permutation_map.
Qed.

Lemma before_asym (a b : jsstring * entry) : before a b = true -> before b a = false.
Proof.
  unfold before. destruct (snd a), (snd b); try discriminate; try reflexivity.
  rewrite Nat.ltb_lt, Nat.ltb_ge. lia.
Qed.

Lemma insertSorted_Sorted (x : jsstring * entry) (l : frequencyTable) :
  Sorted (fun a b => before b a = false) l ->
  Sorted (fun a b => before b a = false) (insertSorted x l).
Proof.
  induction 1 as [|y l S IH H]; simpl; [repeat constructor|].
  destruct (before y x) eqn:E.
  - constructor; [exact IH|].
    destruct l as [|z l]; simpl.
    + constructor. now apply before_asym.
    + inversion H; subst. destruct (before z x); constructor;
        [assumption | now apply before_asym].
  - constructor; [now constructor | now constructor].
Qed.

Lemma sortByCount_Sorted (l : frequencyTable) :
  Sorted (fun a b => before b a = false) (sortByCount l).
Proof.
  unfold sortByCount. induction l as [|x l IH]; simpl; [constructor|].
  now apply insertSorted_Sorted.
Qed.

Lemma Sorted_firstn {A : Type} (R : A -> A -> Prop) (n : nat) (l : list A) :
  Sorted R l -> Sorted R (firstn n l).
Proof.
  intros H. revert n. induction H as [|a l S IH H]; intros n.
  - rewrite firstn_nil. constructor.
  - destruct n as [|n]; simpl; [constructor|].
    constructor; [apply IH|].
    destruct H as [|b l H]; [rewrite firstn_nil; constructor|].
    destruct n; simpl; now constructor.
Qed.

(** X17: when no word of the input has the name of an inherited method
    as its lower-case form, every common word carries a number and the
    common words are listed by decreasing number of occurrences. *)
Theorem common_words_by_decreasing_count (words : list jsstring) (limit : nat) :
  Forall (fun w => ~ In (toLowerCase w) inheritedMethods) words ->
  StronglySorted countGe (getMostCommonWords toLowerCase words limit).
Proof.
  intros H.
  assert (T : Forall (fun wc => exists n, count wc = Times n)
                     (getMostCommonWords toLowerCase words limit)).
  { pose proof (common_words_origin words limit) as F.
    cbv zeta in F. eapply Forall_impl; [|exact F].
    intros wc [[w [I [_ E]]] C]. rewrite Forall_forall in H. specialize (H w I).
    rewrite <- E in H. symmetry in C. unfold counted in C.
    destruct (count_occ _ _ _); [discriminate|].
    destruct (jsstring_eqb _ (js "__proto__")); [discriminate|].
    destruct (existsb _ inheritedMethods) eqn:X.
    - apply inherited_In in X. contradiction.
    - injection C as C. eexists. symmetry. exact C. }
  apply Sorted_StronglySorted.
  { intros a b c [ca [cb [A [B L]]]] [cb' [cc [B' [C L']]]].
    exists ca, cc. repeat split; auto. rewrite B in B'. injection B' as <-. lia. }
  unfold getMostCommonWords in *. cbv zeta in *.
  set (l := firstn limit _) in *.
  assert (S : Sorted (fun a b => before b a = false) l)
    by apply Sorted_firstn, sortByCount_Sorted.
  clearbody l. induction S as [|a l S IH R]; simpl; [constructor|].
  inversion T as [|? ? [ca Ea] T']; subst. constructor; [now apply IH|].
  destruct R as [|b l R]; simpl; constructor.
  inversion T' as [|? ? [cb Eb] _]; subst. simpl in Ea, Eb.
  exists ca, cb. repeat split; auto. unfold before in R. rewrite Ea, Eb in R.
  apply Nat.ltb_ge in R. exact R.
Qed.

End WordFrequencies.

(** ** The report *)

Lemma join_head (sep s : jsstring) (l : list jsstring) :
  exists rest, join sep (s :: l) = s ++ rest.
Proof.
  destruct l as [|s' l]; simpl.
  - exists []. now rewrite app_nil_r.
  - now eexists.
Qed.

Lemma COMMON_TRANSITIONS_nonempty : Forall (fun t => t <> []) COMMON_TRANSITIONS.
Proof.
  vm_compute. repeat constructor; discriminate.
Qed.

(** X18: the list of connectors that the report shows is the word Aucun
    exactly when no transition was found; otherwise it is the transitions
    found, joined by a comma and a space. *)
Theorem reported_transitions (toLowerCase : jsstring -> jsstring)
        (v : VocabularyStats) (text : jsstring) :
  let found := findTransitions toLowerCase text in
  reportedTransitions
    {| vocabularyStats := v;
       sentenceStats := analyzeSentenceStructure toLowerCase text |}
  = match found with
    | [] => js "Aucun"
    | _ :: _ => join (js ", ") found
    end.
Proof.
  cbv zeta. unfold reportedTransitions. cbn [sentenceStats].
  unfold analyzeSentenceStructure. cbn [transitions].
  assert (N : Forall (fun t => t <> []) (findTransitions toLowerCase text)).
  { unfold findTransitions. apply Forall_forall. intros t Ht.
    apply filter_In in Ht as [Ht _]. revert t Ht. apply Forall_forall.
    exact COMMON_TRANSITIONS_nonempty. }
  destruct (findTransitions toLowerCase text) as [|t l]; [reflexivity|].
  inversion N as [|? ? Ht _]; subst.
  destruct (join_head (js ", ") t l) as [rest E]. rewrite E.
  destruct t; [congruence | reflexivity].
Qed.

(** X19: on a text that is not blank, the average sentence length that
    the report formats is the number of tokens divided by the number of
    sentences. It is never [NaN], and it is [Infinity] exactly when the
    text has no sentence. *)
Theorem reported_sentence_length (toLowerCase : jsstring -> jsstring)
        (this : TextAnalyzer) (text : jsstring) :
  trim text <> [] ->
  let m := metrics (fst (analyzeText toLowerCase this text)) in
  reportedSentenceLength m = div (length (tokens text)) (length (sentencesOf text))
  /\ reportedSentenceLength m <> NaN
  /\ (reportedSentenceLength m = Infinity <-> sentencesOf text = []).
Proof.
  intros H. cbv zeta.
  assert (B : nonEmpty (trim text) = true)
    by (destruct (trim text); [congruence | reflexivity]).
  rewrite (analyzeText_nonblank toLowerCase this text B). cbv zeta.
  cbn [fst metrics]. unfold reportedSentenceLength.
  cbn [vocabularyStats sentenceStats]. unfold analyzeVocabularyStats,
    analyzeSentenceStructure. cbn [totalWords lengths].
  rewrite length_map. fold (tokens text).
  assert (T : tokens text <> []).
  { intros E. apply tokens_nil_blank in E. rewrite nonEmpty_trim, E in B.
    discriminate. }
  split; [reflexivity|].
  destruct (tokens text) as [|w ws]; [congruence|].
  destruct (sentencesOf text) as [|s ss]; simpl;
    repeat split; intros; try discriminate; congruence.
Qed.

(** ** The sentence-length check *)

Lemma split_length_step (sep : codeunit -> bool) (c d : codeunit) (u : jsstring) :
  length (split sep (c :: d :: u))
  = Nat.b2n (sep c && negb (sep d)) + length (split sep (d :: u)).
Proof.
  change (split sep (c :: d :: u)) with
    (if sep c
     then if sep d then split sep (d :: u) else [] :: split sep (d :: u)
     else match split sep (d :: u) with
          | piece :: rest => (c :: piece) :: rest
          | [] => [[c]]
          end).
  destruct (sep c); [destruct (sep d); reflexivity|].
  destruct (split_cons sep (d :: u)) as [piece [rest ->]]. reflexivity.
Qed.

(** The number of pieces of a split depends on the positions of the
    separators only. *)
Lemma split_length_positions (sep : codeunit -> bool) (s s' : jsstring) :
  map sep s = map sep s' -> length (split sep s) = length (split sep s').
Proof.
  revert s'; induction s as [|c s IH]; intros [|c' s'] H; try discriminate;
    [reflexivity|].
  injection H as Hc H.
  destruct s as [|d u], s' as [|d' u']; try discriminate.
  - simpl. rewrite Hc. now destruct (sep c').
  - rewrite !split_length_step, (IH (d' :: u') H).
    injection H as Hd _. now rewrite Hc, Hd.
Qed.

Section SentenceLengthCheck.

Variable toLowerCase : jsstring -> jsstring.

(** X20: on a text that is not blank and whose lower-case form keeps its
    whitespace where it is, the marker for long sentences is emitted
    exactly when 25 times the number of sentences is less than the number
    of words, plus one when the text begins with whitespace and one when
    it ends with whitespace. *)
Theorem long_sentences_check (this : TextAnalyzer) (text : jsstring) :
  trim text <> [] ->
  map isWhiteSpace (toLowerCase text) = map isWhiteSpace text ->
  let r := fst (analyzeText toLowerCase this text) in
  let m := metrics r in
  In {| type := structure; message := LongSentences; severity := high |}
     (markersOf r)
  <-> 25 * sentenceCount m
      < totalWords (vocabularyStats m)
        + Nat.b2n (beginsWith isWhiteSpace text)
        + Nat.b2n (endsWith isWhiteSpace text).
Proof.
  intros H W. cbv zeta.
  assert (B : nonEmpty (trim text) = true)
    by (destruct (trim text); [congruence | reflexivity]).
  rewrite (analyzeText_nonblank toLowerCase this text B). cbv zeta.
  unfold markersOf, sentenceCount. cbn [fst metrics details].
  rewrite performDetailedAnalysis_checks. cbv zeta.
  cbn [fst this_metrics sentenceStats vocabularyStats].
  unfold analyzeSentenceStructure, analyzeVocabularyStats.
  cbn [lengths totalWords]. rewrite !length_map. fold (tokens text).
  assert (N : text <> []) by (intros ->; now apply H).
  rewrite (split_length_positions isWhiteSpace _ _ W),
    (split_length_pieces isWhiteSpace text N). fold (tokens text).
  rewrite <- Nat.ltb_lt.
  set (long := 25 * length (sentencesOf text) <? _).
  split.
  - intros I.
    repeat (apply in_app_or in I; destruct I as [I | I]);
      match type of I with
      | In _ (if ?c then _ else _) => destruct c eqn:C
      end; simpl in I; try contradiction;
      destruct I as [I | []]; try discriminate. reflexivity.
  - intros L. apply in_or_app. left. rewrite L. now left.
Qed.

End SentenceLengthCheck.

(** ** Instances of the theorems that have a premise *)

Lemma blank_text_short_circuits_witness :
  let text := js "   " in
  let r := fst (analyzeText toLowerCaseLatin1 newTextAnalyzer text) in
  let this' := snd (analyzeText toLowerCaseLatin1 newTextAnalyzer text) in
  Forall (fun c => isWhiteSpace c = true) text
  /\ r = {| aiScore := 0;
            details := PleaseEnterText;
            metrics :=
              {| vocabularyStats :=
                   {| uniqueWords := 0; totalWords := 0; avgWordLength := Num 0;
                      commonWords := [] |};
                 sentenceStats :=
                   {| lengths := [];
                      types := {| simple := 0; compound := 0; complex := 0 |};
                      transitions := [] |} |} |}
  /\ markersOf r = []
  /\ this_metrics this' = this_metrics newTextAnalyzer.
Proof.
  cbv zeta.
  assert (W : Forall (fun c => isWhiteSpace c = true) (js "   "))
    by (repeat constructor).
  split; [exact W|].
  exact (blank_text_short_circuits toLowerCaseLatin1 newTextAnalyzer (js "   ") W).
Defined.

Lemma type_counts_add_up_to_sentences_witness :
  let text := js "Le chat dort. Il mange, et il boit ! Le chien, qui court, aboie." in
  let r := fst (analyzeText toLowerCaseLatin1 newTextAnalyzer text) in
  let t := types (sentenceStats (metrics r)) in
  trim text <> []
  /\ simple t + compound t + complex t = length (sentencesOf text)
  /\ length (lengths (sentenceStats (metrics r))) = length (sentencesOf text).
Proof.
  cbv zeta.
  assert (N : trim (js "Le chat dort. Il mange, et il boit ! Le chien, qui court, aboie.") <> [])
    by (vm_compute; discriminate).
  split; [exact N|].
  exact (type_counts_add_up_to_sentences toLowerCaseLatin1 newTextAnalyzer _ N).
Defined.

Lemma nonblank_text_has_words_witness :
  let text := js "Le chat dort. Le chat mange." in
  let v := vocabularyStats
             (metrics (fst (analyzeText toLowerCaseLatin1 newTextAnalyzer text))) in
  trim text <> []
  /\ 1 <= uniqueWords v <= totalWords v
  /\ exists q, div (uniqueWords v) (totalWords v) = Num q /\ (0 < q <= 1)%Q.
Proof.
  cbv zeta.
  assert (N : trim (js "Le chat dort. Le chat mange.") <> [])
    by (vm_compute; discriminate).
  split; [exact N|].
  exact (nonblank_text_has_words toLowerCaseLatin1 newTextAnalyzer _ N).
Defined.

Lemma blank_text_vocabulary_is_zero_witness :
  let text := js "   " in
  Forall (fun c => isWhiteSpace c = true) text
  /\ analyzeVocabularyStats toLowerCaseLatin1 text
     = {| uniqueWords := 0; totalWords := 0; avgWordLength := Num 0;
          commonWords := [] |}.
Proof.
  cbv zeta.
  assert (W : Forall (fun c => isWhiteSpace c = true) (js "   "))
    by (repeat constructor).
  split; [exact W|].
  exact (blank_text_vocabulary_is_zero toLowerCaseLatin1 (js "   ") W).
Defined.

Lemma average_word_length_witness :
  let text := js " Le chat dort " in
  let v := analyzeVocabularyStats toLowerCaseLatin1 text in
  let characters := length (filter (fun c => negb (isWhiteSpace c)) text) in
  tokens text <> []
  /\ exists q, avgWordLength v = Num q
               /\ (q == Z.of_nat characters # Pos.of_nat (totalWords v))%Q
               /\ (1 <= q)%Q.
Proof.
  cbv zeta.
  assert (T : tokens (js " Le chat dort ") <> []) by (vm_compute; discriminate).
  split; [exact T|].
  exact (average_word_length toLowerCaseLatin1 (js " Le chat dort ") T).
Defined.

Lemma score_in_counts_witness :
  let text := js "Le chat dort. Il mange, et il boit." in
  let r := fst (analyzeText toLowerCaseLatin1 newTextAnalyzer text) in
  let m := metrics r in
  let pieces := length (split isWhiteSpace (toLowerCaseLatin1 text)) in
  trim text <> []
  /\ aiScore r
     = (delta (25 * sentenceCount m <? pieces)%nat 15
        + delta (4 * length (transitions (sentenceStats m)) <? sentenceCount m)%nat 10
        + delta (7 * sentenceCount m <? 10 * simple (types (sentenceStats m)))%nat 10
        + delta (5 * uniqueWords (vocabularyStats m)
                 <? 2 * totalWords (vocabularyStats m))%nat 20)%Z
  /\ 1 <= pieces.
Proof.
  cbv zeta.
  assert (N : trim (js "Le chat dort. Il mange, et il boit.") <> [])
    by (vm_compute; discriminate).
  split; [exact N|].
  exact (score_in_counts toLowerCaseLatin1 newTextAnalyzer _ N).
Defined.

Lemma no_sentence_score_witness :
  let text := js " ?! " in
  let r := fst (analyzeText toLowerCaseLatin1 newTextAnalyzer text) in
  trim text <> []
  /\ sentencesOf text = []
  /\ In {| type := structure; message := LongSentences; severity := high |}
        (markersOf r)
  /\ (forall m, In m (markersOf r) ->
                message m <> MissingTransitions /\ message m <> SimpleStructure)
  /\ (aiScore r = 15 \/ aiScore r = 35)%Z.
Proof.
  cbv zeta.
  assert (N : trim (js " ?! ") <> []) by (vm_compute; discriminate).
  assert (S : sentencesOf (js " ?! ") = []) by reflexivity.
  split; [exact N|]. split; [exact S|].
  exact (no_sentence_score toLowerCaseLatin1 newTextAnalyzer _ N S).
Defined.

Lemma common_words_by_decreasing_count_witness :
  let words := [js "chat"; js "chien"; js "Chien"; js "le"; js "CHIEN"; js "chat"] in
  Forall (fun w => ~ In (toLowerCaseLatin1 w) inheritedMethods) words
  /\ StronglySorted countGe (getMostCommonWords toLowerCaseLatin1 words 20).
Proof.
  cbv zeta.
  assert (H : Forall (fun w => ~ In (toLowerCaseLatin1 w) inheritedMethods)
                     [js "chat"; js "chien"; js "Chien"; js "le"; js "CHIEN"; js "chat"]).
  { repeat apply Forall_cons; try apply Forall_nil;
      rewrite <- inherited_In; vm_compute; discriminate. }
  split; [exact H|].
  exact (common_words_by_decreasing_count toLowerCaseLatin1 _ 20 H).
Defined.

Lemma reported_sentence_length_witness :
  let text := js "Le chat dort. Il mange." in
  let m := metrics (fst (analyzeText toLowerCaseLatin1 newTextAnalyzer text)) in
  trim text <> []
  /\ reportedSentenceLength m = div (length (tokens text)) (length (sentencesOf text))
  /\ reportedSentenceLength m <> NaN
  /\ (reportedSentenceLength m = Infinity <-> sentencesOf text = []).
Proof.
  cbv zeta.
  assert (N : trim (js "Le chat dort. Il mange.") <> []) by (vm_compute; discriminate).
  split; [exact N|].
  exact (reported_sentence_length toLowerCaseLatin1 newTextAnalyzer _ N).
Defined.

Lemma long_sentences_check_witness :
  let text := js " Le chat dort. " in
  let r := fst (analyzeText toLowerCaseLatin1 newTextAnalyzer text) in
  let m := metrics r in
  trim text <> []
  /\ map isWhiteSpace (toLowerCaseLatin1 text) = map isWhiteSpace text
  /\ (In {| type := structure; message := LongSentences; severity := high |}
         (markersOf r)
      <-> 25 * sentenceCount m
          < totalWords (vocabularyStats m)
            + Nat.b2n (beginsWith isWhiteSpace text)
            + Nat.b2n (endsWith isWhiteSpace text)).
Proof.
  cbv zeta.
  assert (N : trim (js " Le chat dort. ") <> []) by (vm_compute; discriminate).
  assert (W : map isWhiteSpace (toLowerCaseLatin1 (js " Le chat dort. "))
              = map isWhiteSpace (js " Le chat dort. ")) by reflexivity.
  split; [exact N|]. split; [exact W|].
  exact (long_sentences_check toLowerCaseLatin1 newTextAnalyzer _ N W).
Defined.
